(** * adblock-rust-check: source resolution, aggregation and query dispatch

    A shallow embedding of [lib/util.js] and of the command line script
    [scripts/check.js], and the properties of the design document checked
    against them.

    JavaScript strings are modelled as [string]; an array of strings as
    [list string]; a value that is either a string or an array of strings
    (the code tests [x.constructor === Array]) as [OneOrMany]; a value that
    may be [undefined] as [option]; a promise by the way it settles. *)

From stdpp Require Import base list strings pretty gmap.
From Stdlib Require Import Ascii.

(* ================================================================== *)
(** * Definitions *)
(* ================================================================== *)

(** ** JavaScript strings: [split('\n')], [join('\n')], truthiness *)

Definition nl : ascii := "010"%char.
Definition NL : string := String nl EmptyString.

(** [s.split('\n')]: always at least one segment, empty segments kept. *)
Fixpoint split_nl (s : string) : list string :=
  match s with
  | EmptyString => [EmptyString]
  | String c r =>
      if decide (c = nl) then EmptyString :: split_nl r
      else match split_nl r with
           | h :: t => String c h :: t
           | [] => [String c EmptyString]
           end
  end.

(** [a.join('\n')] *)
Fixpoint join_nl (a : list string) : string :=
  match a with
  | [] => EmptyString
  | [x] => x
  | x :: rest => x +:+ NL +:+ join_nl rest
  end.

Fixpoint has_nl (s : string) : bool :=
  match s with
  | EmptyString => false
  | String c r => if decide (c = nl) then true else has_nl r
  end.

Fixpoint count_nl (s : string) : nat :=
  match s with
  | EmptyString => 0
  | String c r => (if decide (c = nl) then 1 else 0) + count_nl r
  end.

(** A value that is either one string or an array of strings. *)
Inductive OneOrMany : Type :=
  | One (s : string)
  | Many (a : list string).

(** A command line value: [None] is [undefined]. *)
Abbreviation JsVal := (option string).

(** JavaScript truthiness of a string-or-undefined: [undefined] and the
    empty string are falsy. *)
Definition truthy (v : JsVal) : bool :=
  match v with
  | None => false
  | Some EmptyString => false
  | Some _ => true
  end.

(** [`${v}`] *)
Definition template (v : JsVal) : string :=
  match v with
  | None => "undefined"
  | Some s => s
  end.

(** ** Errors and promises *)

Record JsError : Type := mkError { err_name : string; err_message : string }.

Definition Error (msg : string) : JsError := mkError "Error" msg.
Definition ReferenceError (msg : string) : JsError := mkError "ReferenceError" msg.
Definition TypeError (msg : string) : JsError := mkError "TypeError" msg.

(** [`${error}`] for an error object. *)
Definition error_toString (e : JsError) : string :=
  err_name e +:+ ": " +:+ err_message e.

(** How a promise settles. *)
Inductive Settled (A : Type) : Type :=
  | Fulfilled (v : A)
  | Rejected (e : JsError).
Arguments Fulfilled {A} v.
Arguments Rejected {A} e.

(** Synchronous completion of a function call. *)
Inductive Completion (A : Type) : Type :=
  | Normal (v : A)
  | Throw (e : JsError).
Arguments Normal {A} v.
Arguments Throw {A} e.

Definition cbind {A B} (m : Completion A) (k : A → Completion B) : Completion B :=
  match m with
  | Normal v => k v
  | Throw e => Throw e
  end.

#[global] Instance Completion_bind : MBind Completion := λ A B k m, cbind m k.
#[global] Instance Completion_ret : MRet Completion := λ A v, Normal v.

(** ** [Promise.all]

    The element promises settle in some order in time ([order]: the
    indices in completion order).  [Promise.all] stores each fulfilment
    value at the index of its promise, counts down the promises still
    pending, fulfils with the array of values when the count reaches zero,
    and rejects with the first rejection it sees; once settled, later
    settlements of the elements change nothing. *)

Record AllState (A : Type) : Type := mkAll {
  all_values : list (option A);
  all_remaining : nat;
  all_outcome : option (Settled (list A))
}.
Arguments mkAll {A}.
Arguments all_values {A}.
Arguments all_remaining {A}.
Arguments all_outcome {A}.

Definition all_init {A} (ps : list (Settled A)) : AllState A :=
  mkAll (replicate (length ps) None) (length ps)
        (match ps with [] => Some (Fulfilled []) | _ => None end).

Definition all_step {A} (ps : list (Settled A)) (st : AllState A) (i : nat)
  : AllState A :=
  match all_outcome st with
  | Some _ => st
  | None =>
      match ps !! i with
      | None => st
      | Some (Rejected e) =>
          mkAll (all_values st) (all_remaining st) (Some (Rejected e))
      | Some (Fulfilled v) =>
          let values := <[i := Some v]> (all_values st) in
          let remaining := pred (all_remaining st) in
          mkAll values remaining
                (if decide (remaining = 0)
                 then Fulfilled <$> mapM id values
                 else None)
      end
  end.

(** [None]: still pending after the given settlements. *)
Definition Promise_all {A} (ps : list (Settled A)) (order : list nat)
  : option (Settled (list A)) :=
  all_outcome (foldl (all_step ps) (all_init ps) order).

(** Every element promise settles exactly once. *)
Definition complete_order {A} (ps : list (Settled A)) (order : list nat) : Prop :=
  order ≡ₚ seq 0 (length ps).

(** ** The external collaborators *)

(** What [request.get] hands to its callback. *)
Inductive FetchOutcome : Type :=
  | TransportError (error : string)          (* [error], already as text *)
  | Reply (statusCode : N) (body : string).

(** One entry of a catalog of [adblock-rs]. *)
Record ListDescriptor : Type := mkList { list_uuid : string; list_url : string }.

(** The matching engine is opaque: a client is known by the way it was
    constructed, [new Engine(rules)]. *)
Inductive Client : Type :=
  | Engine (rules : list string).

Definition Engine_rules (c : Client) : list string :=
  match c with Engine rules => rules end.

(** ** lib/util.js *)

(** [if (filter) { body = filter(body) }]: a function is truthy,
    [undefined] ([None]) is not. *)
Definition applyFilter (filter : option (string → string)) (body : string)
  : string :=
  match filter with
  | Some f => f body
  | None => body
  end.

Section Util.

(** [sanitizeABPInput] of [lib/filtering]. *)
Variable sanitizeABPInput : string → string.
(** The network, as seen through [request.get]. *)
Variable request_get : string → FetchOutcome.
(** The file system, as seen through [fs.readFileSync(path, 'utf8')]:
    the content, or the error thrown. *)
Variable readFileSync : string → JsError + string.
(** The parse options, passed along and never inspected. *)
Variable Options : Type.

Definition makeAdBlockClientFromString (filterRuleData : OneOrMany)
    (options : Options) : Settled Client :=
  let rules :=
    match filterRuleData with
    | Many a => join_nl a
    | One s => s
    end in
  let client := Engine (split_nl rules) in
  Fulfilled client.

Definition getSingleListDataFromSingleURL (listURL : string)
    (filter : option (string → string)) : Settled string :=
  match request_get listURL with
  | TransportError error => Rejected (Error ("Request error: " +:+ error))
  | Reply statusCode body =>
      if decide (statusCode ≠ 200%N) then
        Rejected (Error ("Error status code " +:+ pretty statusCode
                           +:+ " returned for URL: " +:+ listURL))
      else
        let body := applyFilter filter body in
        let body := sanitizeABPInput body in
        Fulfilled body
  end.

(** [order] is the order in which the fetches of an array of URLs
    complete; it plays no part for a single URL.  The result is [None]
    when the promise never settles.  The progress lines that the function
    prints on the console are left out. *)
Definition makeAdBlockClientFromListURL (listURL : OneOrMany)
    (filter : option (string → string)) (options : Options)
    (order : list nat) : option (Settled Client) :=
  match listURL with
  | Many urls =>
      let requestPromises :=
        map (λ currentURL, getSingleListDataFromSingleURL currentURL filter)
            urls in
      match Promise_all requestPromises order with
      | Some (Fulfilled results) =>
          let body := join_nl results in
          let body := sanitizeABPInput body in
          Some (makeAdBlockClientFromString (One body) options)
      | Some (Rejected error) =>
          Some (Rejected (Error ("getSingleListDataFromSingleURL error: "
                                   +:+ error_toString error)))
      | None => None
      end
  | One url =>
      match getSingleListDataFromSingleURL url filter with
      | Fulfilled listData =>
          let body := sanitizeABPInput listData in
          Some (makeAdBlockClientFromString (One body) options)
      | Rejected error =>
          Some (Rejected (Error ("getSingleListDataFromSingleURL error: "
                                   +:+ error_toString error)))
      end
  end.

Definition registered_uuid : string := "FBB430E8-3910-4761-9373-840FC3B43FF2".

(** [undefined] is [None]. *)
Definition getListFilterFunction (uuid : string) : option (string → string) :=
  if decide (uuid = registered_uuid) then
    Some (λ input,
            join_nl (map (λ line, "||" +:+ line) (drop 4 (split_nl input))))
  else None.

(** [filePath.map(...)] reads the files one after the other; the first
    read that throws ends the loop. *)
Fixpoint readFiles (paths : list string) : JsError + list string :=
  match paths with
  | [] => inr []
  | p :: rest =>
      match readFileSync p with
      | inl e => inl e
      | inr content =>
          match readFiles rest with
          | inl e => inl e
          | inr contents => inr (content :: contents)
          end
      end
  end.

(** An exception inside the promise executor rejects the promise. *)
Definition makeAdBlockClientFromFilePath (filePath : OneOrMany)
    (options : Options) : Settled Client :=
  match filePath with
  | Many paths =>
      match readFiles paths with
      | inl e => Rejected e
      | inr filterRuleData =>
          makeAdBlockClientFromString (Many filterRuleData) options
      end
  | One path =>
      match readFileSync path with
      | inl e => Rejected e
      | inr filterRuleData =>
          makeAdBlockClientFromString (One filterRuleData) options
      end
  end.

(** [readSiteList]; [path] may be [undefined], which [readFileSync]
    refuses with Node's [ERR_INVALID_ARG_TYPE]. *)
Definition readSiteList (path : JsVal) : Completion (list string) :=
  match path with
  | None =>
      Throw (TypeError
        ("The " +:+ String "034"%char "path" +:+ String "034"%char
           " argument must be of type string or an instance of Buffer or URL. Received undefined"))
  | Some p =>
      match readFileSync p with
      | inl e => Throw e
      | inr content => Normal (split_nl content)
      end
  end.

End Util.

(** ** Name resolution

    [makeAdBlockClientFromListUUID] refers to names by their scope: its own
    block (parameters and the [let]/[const] bindings, which exist from the
    entry of the block and are uninitialized until their declaration has
    been evaluated), then the module, then the global object. *)

#[local] Set Warnings "-register-all".
Inductive Value : Type :=
  | VUndefined
  | VString (s : string)
  | VEntry (l : ListDescriptor)             (* one catalog entry *)
  | VArray (a : list ListDescriptor)        (* an array of catalog entries *)
  | VObject (fields : list (string * Value))
  | VLists                                  (* [lists] of adblock-rs *)
  | VHost (name : string).                  (* any other module or function *)

Inductive Binding : Type :=
  | Uninitialized
  | Initialized (v : Value).

Fixpoint resolveBinding (chain : list (gmap string Binding)) (x : string)
  : Completion Value :=
  match chain with
  | [] => Throw (ReferenceError (x +:+ " is not defined"))
  | scope :: outer =>
      match scope !! x with
      | Some Uninitialized =>
          Throw (ReferenceError ("Cannot access '" +:+ x
                                   +:+ "' before initialization"))
      | Some (Initialized v) => Normal v
      | None => resolveBinding outer x
      end
  end.

Definition truthyValue (v : Value) : bool :=
  match v with
  | VUndefined => false
  | VString s => truthy (Some s)
  | _ => true
  end.

(** [o.p] *)
Definition getProperty (o : Value) (p : string) : Completion Value :=
  match o with
  | VUndefined =>
      Throw (TypeError ("Cannot read properties of undefined (reading '"
                          +:+ p +:+ "')"))
  | VObject fields =>
      Normal (match list_find (λ f : string * Value, f.1 = p) fields with
              | Some (_, (_, v)) => v
              | None => VUndefined
              end)
  | VEntry l =>
      Normal (if decide (p = "uuid") then VString (list_uuid l)
              else if decide (p = "url") then VString (list_url l)
              else VUndefined)
  | _ => Normal VUndefined
  end.

(** The bindings of the module [lib/util.js] once it is loaded. *)
Definition module_scope : gmap string Binding :=
  list_to_map
    ((λ n, (n, Initialized (VHost n))) <$>
       ["request"; "sanitizeABPInput"; "fs"; "Engine";
        "makeAdBlockClientFromString"; "makeAdBlockClientFromDATFile";
        "getSingleListDataFromSingleURL"; "makeAdBlockClientFromListURL";
        "getListFilterFunction"; "makeAdBlockClientFromListUUID";
        "makeAdBlockClientFromFilePath"; "getListBufferFromURL";
        "readSiteList"])
  ∪ {[ "lists" := Initialized VLists ]}.

Section Catalog.

Variable sanitizeABPInput : string → string.
Variable request_get : string → FetchOutcome.
Variable Options : Type.
(** The catalogs of [adblock-rs], by name. *)
Variable lists : string → list ListDescriptor.
(** The properties of the global object. *)
Variable globals : gmap string Value.

(** [new f(arg)] *)
Definition construct (f : Value) (arg : string) : Completion Value :=
  match f with
  | VLists => Normal (VArray (lists arg))
  | VHost name => Throw (TypeError (name +:+ " is not a constructor"))
  | _ => Throw (TypeError "value is not a constructor")
  end.

(** [a.find((l) => l.uuid === uuid)] *)
Definition find_uuid (a : Value) (uuid : string) : Completion Value :=
  match a with
  | VArray entries =>
      Normal (match list_find (λ l, list_uuid l = uuid) entries with
              | Some (_, l) => VEntry l
              | None => VUndefined
              end)
  | VUndefined =>
      Throw (TypeError "Cannot read properties of undefined (reading 'find')")
  | _ => Throw (TypeError "find is not a function")
  end.

(** The function either throws, or returns a promise (settled, or pending
    for ever: [None]). *)
Definition makeAdBlockClientFromListUUID (uuid : string) (options : Options)
    (order : list nat) : Completion (option (Settled Client)) :=
  let block : gmap string Binding :=
    {[ "uuid" := Initialized (VString uuid);
       "options" := Initialized (VHost "options");
       "list" := Uninitialized;
       "filterFn" := Uninitialized ]} in
  let env (scope : gmap string Binding) :=
    [scope; module_scope; Initialized <$> globals] in
  (* let list = new list("default").find(...) *)
  ctor ← resolveBinding (env block) "list";
  catalog ← construct ctor "default";
  list0 ← find_uuid catalog uuid;
  let block := <[ "list" := Initialized list0 ]> block in
  list1 ← (if negb (truthyValue list0) then
              adBlockLists ← resolveBinding (env block) "adBlockLists";
              regions ← getProperty adBlockLists "regions";
              find_uuid regions uuid
            else Normal list0);
  let block := <[ "list" := Initialized list1 ]> block in
  list2 ← (if negb (truthyValue list1) then
              adBlockLists ← resolveBinding (env block) "adBlockLists";
              malware ← getProperty adBlockLists "malware";
              find_uuid malware uuid
            else Normal list1);
  if negb (truthyValue list2) then
    Normal (Some (Rejected (Error ("No list found for UUID " +:+ uuid))))
  else
    let filterFn := getListFilterFunction uuid in
    url ← getProperty list2 "url";
    match url with
    | VString u =>
        Normal (makeAdBlockClientFromListURL sanitizeABPInput request_get
                  Options (One u) filterFn options order)
    | _ =>
        Normal (Some (Rejected
          (TypeError "Cannot read properties of undefined (reading 'constructor')")))
    end.

End Catalog.

(** The catalog lookup as the design document words it: search [default],
    then [regions], then [malware]; the first entry whose identifier
    matches; [NotFoundError] when there is none. *)
Inductive ResolveResult : Type :=
  | Found (l : ListDescriptor)
  | NotFoundError.

Definition resolve_spec (lists : string → list ListDescriptor) (identifier : string)
  : ResolveResult :=
  match list_find (λ l, list_uuid l = identifier)
          (lists "default" ++ lists "regions" ++ lists "malware") with
  | Some (_, l) => Found l
  | None => NotFoundError
  end.

(** ** scripts/check.js *)

(** The parsed command line.  An option with a value is a string, or
    [undefined] when absent; [--stats] and [--cache] are flags;
    [--filter-option] defaults to ['image'].  The record covers the runs
    in which every option that is given carries its value: an option given
    bare, which the parser reports as [true], has no place in it. *)
Record Commander : Type := mkCommander {
  commander_uuid : JsVal;
  commander_dat : JsVal;
  commander_filter : JsVal;
  commander_filterPath : JsVal;
  commander_http : JsVal;
  commander_host : JsVal;
  commander_location : JsVal;
  commander_output : JsVal;
  commander_list : JsVal;
  commander_stats : bool;
  commander_cache : bool;
  commander_filterOption : string
}.

(** The call that builds the client: the branch of the selection chain
    that is taken, with its first argument.  The parse options passed as
    the last argument play no part in the selection and are left out. *)
Inductive SourceCall : Type :=
  | CallListUUID (uuid : JsVal)             (* makeAdBlockClientFromListUUID *)
  | CallDATFile (dat : JsVal)               (* makeAdBlockClientFromDATFile *)
  | CallListURL (http : JsVal)              (* makeAdBlockClientFromListURL *)
  | CallString (filter : JsVal)             (* makeAdBlockClientFromString *)
  | CallFilePath (filterPath : JsVal)       (* makeAdBlockClientFromFilePath *)
  | CallDefaultLists (defaultLists : list string).

(** The condition under which [p] is replaced at all. *)
Definition proceeds (commander : Commander) : bool :=
  (truthy (commander_host commander)
     && (truthy (commander_location commander)
           || truthy (commander_list commander)))
  || commander_stats commander.

(** [None]: [p] stays the rejected promise of the usage message. *)
Definition selectSource (lists : string → list ListDescriptor)
    (commander : Commander) : option SourceCall :=
  if proceeds commander then
    Some
      (if truthy (commander_uuid commander) then
         CallListUUID (commander_uuid commander)
       else if truthy (commander_dat commander) then
         CallDATFile (commander_dat commander)
       else if truthy (commander_http commander) then
         CallListURL (commander_http commander)
       else if truthy (commander_filter commander) then
         CallString (commander_filter commander)
       else if truthy (commander_filterPath commander) then
         CallFilePath (commander_filterPath commander)
       else
         let defaultLists := map list_url (lists "default") in
         CallDefaultLists defaultLists)
  else None.

Section Script.

Variable readFileSync : string → JsError + string.
(** The engine's operations on a client. *)
Variable Stats : Type.
Variable Buffer : Type.
Variable getParsingStats : Client → Stats.
Variable check : Client → JsVal → JsVal → JsVal → bool.
Variable serialize : Client → Buffer.
(** The disk, as seen through [fs.writeFileSync(path, data)]: the error
    thrown, if the write fails. *)
Variable write_error : string → Buffer → option JsError.

(** What can be printed. *)
Inductive LogVal : Type :=
  | LStr (s : string)
  | LVal (v : JsVal)
  | LBool (b : bool)
  | LNum (n : nat)
  | LStats (st : Stats)
  | LErr (e : JsError).

(** What the handler does to the outside, in order: the calls it makes.
    [writeFileSync] is the call of [fs.writeFileSync]; whether the file
    gets written is told by [write_error]. *)
Inductive Event : Type :=
  | console_log (args : list LogVal)
  | console_time (label : string)
  | console_timeEnd (label : string)
  | check_call (url source type : JsVal)    (* adBlockClient.check(...) *)
  | writeFileSync (path : string) (data : Buffer).

(** A computation: the events so far, and how it completed. *)
Definition Run (A : Type) : Type := list Event * Completion A.

Definition rret {A} (a : A) : Run A := ([], Normal a).

Definition rbind {A B} (m : Run A) (k : A → Run B) : Run B :=
  match m with
  | (ev, Normal a) => let '(ev', r) := k a in (ev ++ ev', r)
  | (ev, Throw e) => (ev, Throw e)
  end.

Definition emit (e : Event) : Run unit := ([e], Normal tt).

Definition lift {A} (c : Completion A) : Run A := ([], c).

(** [require('fs').writeFileSync(path, data)]: the call, which throws when
    the write fails. *)
Definition do_write (path : string) (data : Buffer) : Run unit :=
  ([writeFileSync path data],
   match write_error path data with
   | Some e => Throw e
   | None => Normal tt
   end).

#[local] Instance Run_bind : MBind Run := λ A B k m, rbind m k.
#[local] Instance Run_ret : MRet Run := λ A a, rret a.

Definition do_check (adBlockClient : Client) (a b c : JsVal) : Run bool :=
  emit (check_call a b c);;
  rret (check adBlockClient a b c).

(** [siteList.forEach(...)], with the two counters. *)
Fixpoint forEach_site (commander : Commander) (adBlockClient : Client)
    (siteList : list string) (matchCount skipCount : nat) : Run (nat * nat) :=
  match siteList with
  | [] => rret (matchCount, skipCount)
  | site :: rest =>
      r ← do_check adBlockClient (Some site)
            (Some (commander_filterOption commander))
            (commander_host commander);
      if (r : bool) then
        forEach_site commander adBlockClient rest (S matchCount) skipCount
      else forEach_site commander adBlockClient rest matchCount (S skipCount)
  end.

(** The fulfilment handler of [p]. *)
Definition onFulfilled (commander : Commander) (adBlockClient : Client)
  : Run unit :=
  if commander_stats commander then
    emit (console_log [LStr "Parsing stats:";
                       LStats (getParsingStats adBlockClient)])
  else
    (if truthy (commander_location commander) then
       emit (console_log [LStr "params:"; LVal (commander_location commander);
                          LStr (commander_filterOption commander);
                          LVal (commander_host commander)]);;
       r ← do_check adBlockClient
             (commander_location commander)
             (Some ("https://" +:+ template (commander_host commander)))
             (Some (commander_filterOption commander));
       emit (console_log [LStr "Matches: "; LBool r]) : Run unit
     else
       siteList ← lift (readSiteList readFileSync (commander_list commander));
       emit (console_time "check");;
       counts ← forEach_site commander adBlockClient siteList 0 0;
       emit (console_timeEnd "check");;
       emit (console_log [LStr "Matching:"; LNum counts.1]);;
       emit (console_log [LStr "Skipped:"; LNum counts.2]));;
    match commander_output commander with
    | Some output =>
        if truthy (Some output) then
          do_write output (serialize adBlockClient)
        else rret tt
    | None => rret tt
    end.

(** [p.then(...).catch((e) => console.log('Error:', e))] *)
Definition settle (commander : Commander) (p : Settled Client) : list Event :=
  match p with
  | Fulfilled adBlockClient =>
      match onFulfilled commander adBlockClient with
      | (ev, Normal _) => ev
      | (ev, Throw e) => ev ++ [console_log [LStr "Error:"; LErr e]]
      end
  | Rejected e => [console_log [LStr "Error:"; LErr e]]
  end.

(** The [check] calls among the events, in order. *)
Definition check_calls (ev : list Event) : list (JsVal * JsVal * JsVal) :=
  omap (λ e, match e with
             | check_call a b c => Some (a, b, c)
             | _ => None
             end) ev.

(** The writes among the events, in order. *)
Definition writes (ev : list Event) : list (string * Buffer) :=
  omap (λ e, match e with
             | writeFileSync path data => Some (path, data)
             | _ => None
             end) ev.

(** What the write at the end of the handler adds to the events. *)
Definition persist_events (commander : Commander) (adBlockClient : Client)
  : list Event :=
  match commander_output commander with
  | Some output =>
      if truthy (Some output) then
        [writeFileSync output (serialize adBlockClient)]
      else []
  | None => []
  end.

(** How the write at the end of the handler completes. *)
Definition persist_completion (commander : Commander) (adBlockClient : Client)
  : Completion unit :=
  match commander_output commander with
  | Some output =>
      if truthy (Some output) then
        match write_error output (serialize adBlockClient) with
        | Some e => Throw e
        | None => Normal tt
        end
      else Normal tt
  | None => Normal tt
  end.

(** The number of sites of the list that the client matches. *)
Definition matching (commander : Commander) (adBlockClient : Client)
    (siteList : list string) : nat :=
  length (List.filter
            (λ site, check adBlockClient (Some site)
                       (Some (commander_filterOption commander))
                       (commander_host commander))
            siteList).

End Script.

(** ** The rest of lib/util.js: snapshot files and list buffers *)

(** A Node [Buffer]: a view of [byteLength] bytes, [byteOffset] bytes into
    an underlying [ArrayBuffer] that may be larger (small buffers are cut
    out of a shared pool). *)
Record NodeBuffer : Type := mkBuffer {
  buf_buffer : list Byte.byte;
  buf_byteOffset : nat;
  buf_byteLength : nat
}.

(** The bytes that the view shows. *)
Definition buffer_bytes (data : NodeBuffer) : list Byte.byte :=
  take (buf_byteLength data) (drop (buf_byteOffset data) (buf_buffer data)).

(** [ab.slice(begin, end)] on an [ArrayBuffer], for indices that are not
    negative: both are clamped to the length. *)
Definition ArrayBuffer_slice (ab : list Byte.byte) (begin finish : nat)
  : list Byte.byte :=
  drop begin (take finish ab).

(** The fate of a promise that is settled from a callback: it settles, or
    it never does, or the callback throws, which nothing catches. *)
Inductive Async (A : Type) : Type :=
  | Settles (s : Settled A)
  | Never
  | UncaughtInCallback (e : JsError).
Arguments Settles {A} s.
Arguments Never {A}.
Arguments UncaughtInCallback {A} e.

Definition of_pending {A} (p : option (Settled A)) : Async A :=
  match p with
  | Some s => Settles s
  | None => Never
  end.

Section Snapshot.

Variable sanitizeABPInput : string → string.
Variable request_get : string → FetchOutcome.
(** The file system, as seen through [fs.readFile(path, callback)]: the
    error, or the buffer read. *)
Variable readFile : string → JsError + NodeBuffer.
(** The engine's [deserialize]: the client afterwards, or the error
    thrown. *)
Variable deserialize : Client → list Byte.byte → Completion Client.

Definition makeAdBlockClientFromDATFile (datFilePath : string) : Async Client :=
  match readFile datFilePath with
  | inl err => Settles (Rejected err)
  | inr data =>
      let client := Engine [] in
      let buf := ArrayBuffer_slice (buf_buffer data) (buf_byteOffset data)
                   (buf_byteOffset data + buf_byteLength data) in
      match deserialize client buf with
      | Throw e => UncaughtInCallback e
      | Normal client => Settles (Fulfilled client)
      end
  end.

Definition getListBufferFromURL (listURL : string)
    (filter : option (string → string)) : Settled string :=
  match request_get listURL with
  | TransportError error => Rejected (Error ("Request error: " +:+ error))
  | Reply statusCode body =>
      if decide (statusCode ≠ 200%N) then
        Rejected (Error ("Error status code " +:+ pretty statusCode
                           +:+ " returned for URL: " +:+ listURL))
      else
        let body := applyFilter filter body in
        let body := sanitizeABPInput body in
        Fulfilled body
  end.

End Snapshot.

(** ** The whole of scripts/check.js *)

(** The bindings of the module [scripts/check.js] when the selection runs. *)
Definition script_scope : gmap string Binding :=
  list_to_map
    ((λ n, (n, Initialized (VHost n))) <$>
       ["Url"; "commander"; "makeAdBlockClientFromListUUID";
        "makeAdBlockClientFromDATFile"; "makeAdBlockClientFromListURL";
        "makeAdBlockClientFromString"; "makeAdBlockClientFromFilePath";
        "readSiteList"; "p"])
  ∪ {[ "lists" := Initialized VLists ]}.

(** The value of a flag when it is truthy. *)
Definition truthy_string (v : JsVal) : option string :=
  match v with
  | Some s => if truthy (Some s) then Some s else None
  | None => None
  end.

Definition usage : JsError :=
  Error "Usage: node check.js --location <location> --host <host> [--uuid <uuid>]".

Section Main.

Variable sanitizeABPInput : string → string.
Variable request_get : string → FetchOutcome.
Variable readFileSync : string → JsError + string.
Variable readFile : string → JsError + NodeBuffer.
Variable lists : string → list ListDescriptor.
Variable globals : gmap string Value.
Variable Stats : Type.
Variable Buffer : Type.
Variable getParsingStats : Client → Stats.
Variable check : Client → JsVal → JsVal → JsVal → bool.
Variable serialize : Client → Buffer.
Variable write_error : string → Buffer → option JsError.
Variable deserialize : Client → list Byte.byte → Completion Client.

(** What the script does to the outside: the list of default URLs it
    prints before fetching them, and the events of the handler. *)
Inductive ScriptEvent : Type :=
  | log_defaultLists (defaultLists : list string)
  | handled (e : Event Stats Buffer).

(** How a run of the script ends: an exception that nothing catches (at
    the top level or in a callback), the handlers run to their end, or the
    promise [p] never settles. *)
Inductive ScriptOutcome : Type :=
  | Uncaught (events : list ScriptEvent) (e : JsError)
  | Completed (events : list ScriptEvent)
  | Pending (events : list ScriptEvent).

(** [p.then(...).catch(...)], once [p] has its final value. *)
Definition attach (commander : Commander) (events : list ScriptEvent)
    (p : Async Client) : ScriptOutcome :=
  match p with
  | Settles s =>
      Completed (events ++ (handled <$>
        settle readFileSync Stats Buffer getParsingStats check serialize
          write_error commander s))
  | Never => Pending events
  | UncaughtInCallback e => Uncaught events e
  end.

(** The script from the declaration of [p] on.  The arguments of a call
    are evaluated before the call: the name [parseOptions] is looked up in
    the module, then in the global object.  [order] is the order in which
    the fetches of the default lists complete. *)
Definition main (commander : Commander) (order : list nat) : ScriptOutcome :=
  let env := [script_scope; Initialized <$> globals] in
  if proceeds commander then
    match truthy_string (commander_uuid commander) with
    | Some uuid =>
        match
          parseOptions ← resolveBinding env "parseOptions";
          makeAdBlockClientFromListUUID sanitizeABPInput request_get Value
            lists globals uuid parseOptions order
        with
        | Throw e => Uncaught [] e
        | Normal p => attach commander [] (of_pending p)
        end
    | None =>
    match truthy_string (commander_dat commander) with
    | Some dat =>
        attach commander []
          (makeAdBlockClientFromDATFile readFile deserialize dat)
    | None =>
    match truthy_string (commander_http commander) with
    | Some http =>
        match resolveBinding env "parseOptions" with
        | Throw e => Uncaught [] e
        | Normal parseOptions =>
            attach commander []
              (of_pending (makeAdBlockClientFromListURL sanitizeABPInput
                             request_get Value (One http) None parseOptions
                             order))
        end
    | None =>
    match truthy_string (commander_filter commander) with
    | Some filter =>
        match resolveBinding env "parseOptions" with
        | Throw e => Uncaught [] e
        | Normal parseOptions =>
            attach commander []
              (Settles (makeAdBlockClientFromString Value (One filter)
                          parseOptions))
        end
    | None =>
    match truthy_string (commander_filterPath commander) with
    | Some filterPath =>
        match resolveBinding env "parseOptions" with
        | Throw e => Uncaught [] e
        | Normal parseOptions =>
            attach commander []
              (Settles (makeAdBlockClientFromFilePath readFileSync Value
                          (One filterPath) parseOptions))
        end
    | None =>
        let defaultLists := map list_url (lists "default") in
        attach commander [log_defaultLists defaultLists]
          (of_pending (makeAdBlockClientFromListURL sanitizeABPInput
                         request_get Value (Many defaultLists) None
                         (VObject []) order))
    end end end end end
  else attach commander [] (Settles (Rejected usage)).

End Main.

(** ** Sample collaborators, for the worked examples *)

Definition cr : ascii := "013"%char.

(** A sanitizer that drops carriage returns. *)
Fixpoint strip_cr (s : string) : string :=
  match s with
  | EmptyString => EmptyString
  | String c r => if decide (c = cr) then strip_cr r else String c (strip_cr r)
  end.

Definition body_a : string := "||a.example^" +:+ String cr EmptyString.
Definition body_b : string := "||b.example^" +:+ NL +:+ "||b2.example^".
Definition body_c : string := "||c.example^".

Definition sample_network (url : string) : FetchOutcome :=
  if decide (url = "https://lists.example/a.txt") then Reply 200 body_a
  else if decide (url = "https://lists.example/b.txt") then Reply 200 body_b
  else if decide (url = "https://lists.example/c.txt") then Reply 200 body_c
  else if decide (url = "https://lists.example/gone.txt") then
    Reply 404 "Not Found"
  else TransportError "Error: getaddrinfo ENOTFOUND".

Definition sites_body : string :=
  "https://a.example/x.js" +:+ NL +:+ "https://b.example/y.js".
Definition rules_txt : string :=
  "||a.example^" +:+ String cr EmptyString +:+ NL +:+ "||b.example^".

Definition sample_files (path : string) : JsError + string :=
  if decide (path = "sites.txt") then inr (sites_body +:+ NL)
  else if decide (path = "rules.txt") then inr rules_txt
  else
    inl (Error ("ENOENT: no such file or directory, open '" +:+ path +:+ "'")).

Definition sample_lists (name : string) : list ListDescriptor :=
  if decide (name = "default") then
    [mkList "67F880F5-7602-4042-8A3D-01481FD7437A" "https://lists.example/a.txt"]
  else if decide (name = "regions") then
    [mkList "03F91310-9244-40FA-BCF6-DA31B832F34D" "https://lists.example/b.txt"]
  else if decide (name = "malware") then
    [mkList "FBB430E8-3910-4761-9373-840FC3B43FF2" "https://lists.example/c.txt"]
  else [].

(** An engine that matches a request when its URL is one of the rules. *)
Definition sample_check (client : Client) (url source type : JsVal) : bool :=
  match url with
  | Some u => bool_decide (u ∈ Engine_rules client)
  | None => false
  end.

(** Its parsing stats: the number of rules; its snapshot: the rules. *)
Definition sample_getParsingStats (client : Client) : nat :=
  length (Engine_rules client).

Definition sample_serialize (client : Client) : list string :=
  Engine_rules client.

(** A disk on which nothing can be written below [/readonly/]. *)
Definition sample_write_error (path : string) (data : list string)
  : option JsError :=
  if String.prefix "/readonly/" path then
    Some (Error ("EACCES: permission denied, open '" +:+ path +:+ "'"))
  else None.

Definition sample_commander : Commander :=
  {| commander_uuid := None; commander_dat := None; commander_filter := None;
     commander_filterPath := None; commander_http := None;
     commander_host := Some "www.cnet.com"; commander_location := None;
     commander_output := None; commander_list := Some "sites.txt";
     commander_stats := false; commander_cache := false;
     commander_filterOption := "image" |}.

(** A run that asks for the stats of a catalog list and for a snapshot. *)
Definition stats_commander : Commander :=
  {| commander_uuid := Some "67F880F5-7602-4042-8A3D-01481FD7437A";
     commander_dat := None; commander_filter := None;
     commander_filterPath := None;
     commander_http := Some "https://lists.example/a.txt";
     commander_host := None; commander_location := None;
     commander_output := Some "out.dat"; commander_list := None;
     commander_stats := true; commander_cache := false;
     commander_filterOption := "image" |}.

(** A batch run that asks for a snapshot. *)
Definition batch_commander : Commander :=
  {| commander_uuid := None; commander_dat := None; commander_filter := None;
     commander_filterPath := None; commander_http := None;
     commander_host := Some "www.cnet.com"; commander_location := None;
     commander_output := Some "out.dat"; commander_list := Some "sites.txt";
     commander_stats := false; commander_cache := false;
     commander_filterOption := "image" |}.

Definition sample_client : Client := Engine ["https://a.example/x.js"].

(** A snapshot on disk, read into a buffer of three bytes cut out of a
    pool of five; any other path is missing. *)
Definition sample_readFile (path : string) : JsError + NodeBuffer :=
  if decide (path = "rules.dat") then
    inr (mkBuffer [Byte.x00; Byte.x61; Byte.x62; Byte.x63; Byte.xff] 1 3)
  else
    inl (Error ("ENOENT: no such file or directory, open '" +:+ path +:+ "'")).

(** An engine that reads one rule of one character per byte of a snapshot,
    and refuses an empty snapshot. *)
Definition sample_deserialize (client : Client) (buf : list Byte.byte)
  : Completion Client :=
  match buf with
  | [] => Throw (Error "deserialization failed")
  | _ => Normal (Engine (map (λ b, String (Ascii.ascii_of_byte b) EmptyString) buf))
  end.

(** A run with nothing but a host. *)
Definition host_only_commander : Commander :=
  {| commander_uuid := None; commander_dat := None; commander_filter := None;
     commander_filterPath := None; commander_http := None;
     commander_host := Some "www.cnet.com"; commander_location := None;
     commander_output := None; commander_list := None;
     commander_stats := false; commander_cache := false;
     commander_filterOption := "image" |}.

(** A run that asks for the stats of the default lists. *)
Definition default_stats_commander : Commander :=
  {| commander_uuid := None; commander_dat := None; commander_filter := None;
     commander_filterPath := None; commander_http := None;
     commander_host := None; commander_location := None;
     commander_output := None; commander_list := None;
     commander_stats := true; commander_cache := false;
     commander_filterOption := "image" |}.

(** A single query against a list fetched from a URL. *)
Definition http_commander : Commander :=
  {| commander_uuid := None; commander_dat := None; commander_filter := None;
     commander_filterPath := None;
     commander_http := Some "https://lists.example/a.txt";
     commander_host := Some "www.cnet.com";
     commander_location := Some "https://a.example/x.js";
     commander_output := None; commander_list := Some "missing.txt";
     commander_stats := false; commander_cache := false;
     commander_filterOption := "image" |}.

(** A batch run over a site list that does not exist. *)
Definition missing_list_commander : Commander :=
  {| commander_uuid := None; commander_dat := None; commander_filter := None;
     commander_filterPath := None; commander_http := None;
     commander_host := Some "www.cnet.com"; commander_location := None;
     commander_output := Some "out.dat"; commander_list := Some "missing.txt";
     commander_stats := false; commander_cache := false;
     commander_filterOption := "image" |}.

(** A stats run over the default lists that asks for a snapshot. *)
Definition stats_output_commander : Commander :=
  {| commander_uuid := None; commander_dat := None; commander_filter := None;
     commander_filterPath := None; commander_http := None;
     commander_host := None; commander_location := None;
     commander_output := Some "out.dat"; commander_list := None;
     commander_stats := true; commander_cache := false;
     commander_filterOption := "image" |}.

(** A batch run that asks for a snapshot where none can be written. *)
Definition readonly_commander : Commander :=
  {| commander_uuid := None; commander_dat := None; commander_filter := None;
     commander_filterPath := None; commander_http := None;
     commander_host := Some "www.cnet.com"; commander_location := None;
     commander_output := Some "/readonly/out.dat";
     commander_list := Some "sites.txt";
     commander_stats := false; commander_cache := false;
     commander_filterOption := "image" |}.

(** A single query against a snapshot that does not exist. *)
Definition dat_commander : Commander :=
  {| commander_uuid := None; commander_dat := Some "missing.dat";
     commander_filter := None; commander_filterPath := None;
     commander_http := None; commander_host := Some "www.cnet.com";
     commander_location := Some "https://a.example/x.js";
     commander_output := None; commander_list := None;
     commander_stats := false; commander_cache := false;
     commander_filterOption := "image" |}.

(* ================================================================== *)
(** * Properties *)
(* ================================================================== *)

(** ** Splitting and joining on newline *)

Lemma split_nl_not_nil (s : string) : split_nl s ≠ [].
Proof.
  destruct s as [|c r]; simpl; [done|].
  case_decide; [done|]. by destruct (split_nl r).
Qed.

Lemma split_nl_cons_other (c : ascii) (r : string) :
  c ≠ nl →
  ∃ h t, split_nl r = h :: t ∧ split_nl (String c r) = String c h :: t.
Proof.
  intros Hc. simpl. rewrite decide_False by done.
  destruct (split_nl r) as [|h t] eqn:E.
  - by destruct (split_nl_not_nil r).
  - by exists h, t.
Qed.

Lemma split_nl_line (x r : string) :
  has_nl x = false → split_nl (x +:+ NL +:+ r) = x :: split_nl r.
Proof.
  induction x as [|c x IH]; intros Hx.
  - done.
  - simpl in Hx. case_decide as Hc; [done|].
    change (String c x +:+ NL +:+ r) with (String c (x +:+ NL +:+ r)).
    destruct (split_nl_cons_other c (x +:+ NL +:+ r) Hc) as (h & t & E1 & E2).
    rewrite E2. rewrite (IH Hx) in E1. by injection E1 as -> ->.
Qed.

Lemma split_nl_single (x : string) : has_nl x = false → split_nl x = [x].
Proof.
  induction x as [|c x IH]; intros Hx; [done|].
  simpl in Hx. case_decide as Hc; [done|].
  destruct (split_nl_cons_other c x Hc) as (h & t & E1 & E2).
  rewrite E2. rewrite (IH Hx) in E1. by injection E1 as -> ->.
Qed.

(** Joining lines and splitting again gives the lines back. *)
Lemma split_join_nl (lines : list string) :
  lines ≠ [] →
  Forall (λ x, has_nl x = false) lines →
  split_nl (join_nl lines) = lines.
Proof.
  induction lines as [|x [|y rest] IH]; intros Hne Hall; [done| |].
  - simpl. apply split_nl_single. by inversion Hall.
  - change (join_nl (x :: y :: rest)) with (x +:+ NL +:+ join_nl (y :: rest)).
    inversion Hall as [|? ? Hx Hrest]; subst.
    rewrite split_nl_line by done. f_equal. by apply IH.
Qed.

Lemma length_split_nl (s : string) : length (split_nl s) = S (count_nl s).
Proof.
  induction s as [|c r IH]; [done|].
  simpl. case_decide as Hc.
  - simpl. by rewrite IH.
  - destruct (split_nl r); simpl in *; lia.
Qed.

(** A text that ends in a newline has a last, empty segment. *)
Lemma split_nl_trailing (s : string) :
  split_nl (s +:+ NL) = split_nl s ++ [EmptyString].
Proof.
  induction s as [|c r IH].
  - done.
  - change (String c r +:+ NL) with (String c (r +:+ NL)).
    simpl. case_decide as Hc.
    + by rewrite IH.
    + rewrite IH. destruct (split_nl r) as [|h t] eqn:E; [|done].
      by destruct (split_nl_not_nil r).
Qed.

Lemma count_nl_app (s t : string) : count_nl (s +:+ t) = count_nl s + count_nl t.
Proof. induction s as [|c r IH]; simpl; [done|]. rewrite IH. lia. Qed.

Lemma has_nl_count (s : string) : has_nl s = false → count_nl s = 0.
Proof.
  induction s as [|c r IH]; simpl; [done|]. case_decide; [done|]. auto.
Qed.

(** ** [Promise.all] *)

Section PromiseAll.

Context {A : Type}.
Implicit Types (ps : list (Settled A)) (st : AllState A) (order : list nat).

(** Once settled, always settled the same way. *)
Lemma all_step_settled ps st i r :
  all_outcome st = Some r → all_step ps st i = st.
Proof. intros H. unfold all_step. by rewrite H. Qed.

Lemma all_run_settled ps order st r :
  all_outcome st = Some r →
  all_outcome (foldl (all_step ps) st order) = Some r.
Proof.
  revert st. induction order as [|i order IH]; intros st H; [done|].
  simpl. rewrite (all_step_settled ps st i r H). by apply IH.
Qed.

(** The state while all promises seen so far were fulfilled: the slots of
    the promises still to settle ([todo]) are the only ones not filled. *)
Record all_inv (vals : list A) (st : AllState A) (todo : list nat) : Prop := {
  inv_nodup : NoDup todo;
  inv_bound : ∀ i, i ∈ todo → i < length vals;
  inv_pending : all_outcome st = None;
  inv_remaining : all_remaining st = length todo;
  inv_filled : ∀ i, i < length vals → i ∉ todo →
               all_values st !! i = Some (vals !! i)
}.

Lemma all_values_full (vals : list A) (values : list (option A)) :
  length values = length vals →
  (∀ i, i < length vals → values !! i = Some (vals !! i)) →
  mapM id values = Some vals.
Proof.
  intros Hlen Hfill.
  assert (values = Some <$> vals) as ->.
  { apply list_eq. intros i. rewrite list_lookup_fmap.
    destruct (decide (i < length vals)) as [Hi|Hi].
    - rewrite (Hfill i Hi).
      destruct (lookup_lt_is_Some_2 vals i Hi) as [v ->]. done.
    - rewrite !lookup_ge_None_2 by lia. done. }
  by apply mapM_fmap_Some.
Qed.

Lemma all_run_fulfilled (vals : list A) todo st :
  todo ≠ [] →
  length (all_values st) = length vals →
  all_inv vals st todo →
  all_outcome (foldl (all_step (Fulfilled <$> vals)) st todo)
  = Some (Fulfilled vals).
Proof.
  revert st. induction todo as [|i todo IH]; intros st Hne Hlen Hinv; [done|].
  destruct Hinv as [Hnd Hbound Hpend Hrem Hfill].
  apply NoDup_cons in Hnd as [Hi Hnd].
  assert (i < length vals) as Hlt by (apply Hbound; left).
  destruct (lookup_lt_is_Some_2 vals i Hlt) as [v Hv].
  simpl. unfold all_step at 2. rewrite Hpend, list_lookup_fmap, Hv. simpl.
  rewrite Hrem. simpl.
  assert (∀ j, j < length vals → j ∉ todo →
               <[i:=Some v]> (all_values st) !! j = Some (vals !! j)) as Hfill'.
  { intros j Hj Hjn. destruct (decide (i = j)) as [<-|Hij].
    - rewrite list_lookup_insert_eq by lia. by rewrite Hv.
    - rewrite list_lookup_insert_ne by done. apply Hfill; [done|].
      rewrite not_elem_of_cons. auto. }
  destruct todo as [|k todo].
  - simpl. rewrite (all_values_full vals); [done| |].
    + by rewrite length_insert.
    + intros j Hj. apply Hfill'; [done|]. apply not_elem_of_nil.
  - rewrite decide_False by done. apply IH; [done| |].
    + simpl. by rewrite length_insert.
    + split; simpl; auto. intros j Hj. apply Hbound. by right.
Qed.

(** When every promise is fulfilled, [Promise.all] is fulfilled with the
    values in the order of the promises, whatever the order in which they
    settled. *)
Lemma Promise_all_fulfilled (vals : list A) order :
  complete_order (Fulfilled <$> vals) order →
  Promise_all (Fulfilled <$> vals) order = Some (Fulfilled vals).
Proof.
  unfold complete_order, Promise_all. rewrite length_fmap. intros Hperm.
  destruct vals as [|v vals].
  - apply Permutation_nil_r in Hperm as ->. done.
  - apply all_run_fulfilled.
    + intros ->. by apply Permutation_nil_cons in Hperm.
    + simpl. by rewrite length_replicate, length_fmap.
    + split.
      * rewrite Hperm. apply NoDup_seq.
      * intros i. rewrite Hperm, elem_of_seq. lia.
      * done.
      * simpl. rewrite length_fmap. by rewrite Hperm, length_seq.
      * intros i Hi Hn. exfalso. apply Hn. rewrite Hperm, elem_of_seq. lia.
Qed.

(** While a promise that will be rejected has not settled yet, the count
    of pending promises cannot reach zero. *)
Lemma all_run_rejected ps (k : nat) (e : JsError) todo st :
  ps !! k = Some (Rejected e) →
  k ∈ todo →
  all_outcome st = None →
  length todo ≤ all_remaining st →
  ∃ j e', ps !! j = Some (Rejected e') ∧
          all_outcome (foldl (all_step ps) st todo) = Some (Rejected e').
Proof.
  intros Hk. revert st.
  induction todo as [|i todo IH]; intros st Hin Hpend Hrem.
  - by apply elem_of_nil in Hin.
  - simpl in *. unfold all_step at 2. rewrite Hpend.
    destruct (ps !! i) as [[v|e']|] eqn:Hi.
    + apply elem_of_cons in Hin as [->|Hin]; [congruence|].
      apply IH; [done| |simpl; lia].
      simpl. rewrite decide_False; [done|].
      destruct todo; [by apply elem_of_nil in Hin|simpl in *; lia].
    + exists i, e'. split; [done|]. by apply all_run_settled.
    + apply elem_of_cons in Hin as [->|Hin]; [congruence|].
      apply IH; [done..|lia].
Qed.

(** When some promise is rejected, [Promise.all] is rejected, with the
    error of one of the rejected promises. *)
Lemma Promise_all_rejected ps (k : nat) (e : JsError) order :
  ps !! k = Some (Rejected e) →
  complete_order ps order →
  ∃ j e', ps !! j = Some (Rejected e') ∧
          Promise_all ps order = Some (Rejected e').
Proof.
  unfold complete_order, Promise_all. intros Hk Hperm.
  apply (all_run_rejected ps k e); [done| | |].
  - rewrite Hperm, elem_of_seq. apply lookup_lt_Some in Hk. lia.
  - destruct ps; [done|done].
  - simpl. by rewrite Hperm, length_seq.
Qed.

End PromiseAll.

(** ** Remote lists: fetching and aggregation *)

Section Remote.

Variable sanitizeABPInput : string → string.
Variable request_get : string → FetchOutcome.
Variable Options : Type.

#[local] Abbreviation fetch :=
  (getSingleListDataFromSingleURL sanitizeABPInput request_get).
#[local] Abbreviation fromListURL :=
  (makeAdBlockClientFromListURL sanitizeABPInput request_get Options).

(** A fetch that is answered with status 200 is fulfilled with the
    filtered, sanitized body. *)
Lemma fetch_200 (url body : string) (filter : option (string → string)) :
  request_get url = Reply 200 body →
  fetch url filter = Fulfilled (sanitizeABPInput (applyFilter filter body)).
Proof.
  intros H. unfold getSingleListDataFromSingleURL. rewrite H.
  by rewrite decide_False by (intros Hne; by apply Hne).
Qed.

(** Any other fetch is rejected, with a message that tells why. *)
Lemma fetch_not_200 (url : string) (filter : option (string → string)) :
  (∀ body, request_get url ≠ Reply 200 body) →
  ∃ e, fetch url filter = Rejected e ∧
       ((∃ error, request_get url = TransportError error ∧
                  e = Error ("Request error: " +:+ error))
        ∨ (∃ statusCode body,
              request_get url = Reply statusCode body ∧ statusCode ≠ 200%N ∧
              e = Error ("Error status code " +:+ pretty statusCode
                           +:+ " returned for URL: " +:+ url))).
Proof.
  intros H. unfold getSingleListDataFromSingleURL.
  destruct (request_get url) as [error|statusCode body] eqn:E.
  - eexists. split; [done|]. left. by exists error.
  - destruct (decide (statusCode ≠ 200%N)) as [Hne|Heq].
    + eexists. split; [done|]. right. by exists statusCode, body.
    + apply dec_stable in Heq as ->. by destruct (H body).
Qed.

Lemma fetch_all_200 (urls bodies : list string) (filter : option (string → string)) :
  Forall2 (λ url body, request_get url = Reply 200 body) urls bodies →
  map (λ currentURL, fetch currentURL filter) urls
  = Fulfilled <$> map (λ body, sanitizeABPInput (applyFilter filter body)) bodies.
Proof.
  induction 1 as [|url body urls bodies H _ IH]; [done|].
  simpl. rewrite IH. f_equal. by apply fetch_200.
Qed.

(** Aggregation of any number of parts: each body filtered and sanitized,
    joined with newline in the order of the URLs, sanitized again. *)
Lemma aggregation_in_input_order (urls bodies : list string)
    (filter : option (string → string)) (options : Options) (order : list nat) :
  Forall2 (λ url body, request_get url = Reply 200 body) urls bodies →
  order ≡ₚ seq 0 (length urls) →
  fromListURL (Many urls) filter options order
  = Some (Fulfilled (Engine (split_nl (sanitizeABPInput (join_nl
      (map (λ body, sanitizeABPInput (applyFilter filter body)) bodies)))))).
Proof.
  intros Hall Hperm. unfold makeAdBlockClientFromListURL.
  rewrite (fetch_all_200 urls bodies filter Hall).
  rewrite Promise_all_fulfilled; [done|].
  unfold complete_order. rewrite length_fmap, length_map.
  by rewrite <-(Forall2_length _ _ _ Hall).
Qed.

(** C1. For the ordered parts [A, B, C], fetched from three URLs that
    answer with fixed texts, aggregation builds the client from
    sanitize(sanitize(A) + "\n" + sanitize(B) + "\n" + sanitize(C)):
    each part sanitized once, joined with newline in the order of the
    input whatever the order in which the fetches complete, and sanitized
    again. *)
Theorem aggregation_three_parts (urlA urlB urlC A B C : string)
    (options : Options) (order : list nat) :
  request_get urlA = Reply 200 A →
  request_get urlB = Reply 200 B →
  request_get urlC = Reply 200 C →
  order ≡ₚ [0; 1; 2] →
  fromListURL (Many [urlA; urlB; urlC]) None options order
  = Some (Fulfilled (Engine (split_nl (sanitizeABPInput
      (sanitizeABPInput A +:+ NL +:+ sanitizeABPInput B +:+ NL
         +:+ sanitizeABPInput C))))).
Proof.
  intros HA HB HC Hperm.
  by rewrite (aggregation_in_input_order [urlA; urlB; urlC] [A; B; C])
    by (repeat constructor; done).
Qed.

(** C9. A single URL (not an array): the body is filtered and sanitized
    inside the fetch, and what the fetch returns is sanitized again
    before the client is built, so the client is built from
    sanitize(sanitize(f(b))). *)
Theorem single_url_sanitized_twice (url b : string) (f : string → string)
    (options : Options) (order : list nat) :
  request_get url = Reply 200 b →
  fromListURL (One url) (Some f) options order
  = Some (Fulfilled (Engine (split_nl
      (sanitizeABPInput (sanitizeABPInput (f b)))))).
Proof.
  intros H. unfold makeAdBlockClientFromListURL.
  by rewrite (fetch_200 url b (Some f) H).
Qed.

(** Without a transform the body itself is sanitized twice. *)
Lemma single_url_no_filter (url b : string) (options : Options) (order : list nat) :
  request_get url = Reply 200 b →
  fromListURL (One url) None options order
  = Some (Fulfilled (Engine (split_nl
      (sanitizeABPInput (sanitizeABPInput b))))).
Proof.
  intros H. unfold makeAdBlockClientFromListURL.
  by rewrite (fetch_200 url b None H).
Qed.

(** C7. In an aggregation of several URLs, when the fetch of one of them
    meets a transport error or a status other than 200, the whole
    aggregation is rejected, whatever the other fetches returned and
    whatever the order of completion: no client is produced.  The error
    carries the message of a failed fetch, which names the transport
    error, or the status code and the URL. *)
Theorem aggregation_fails_as_a_whole (urls : list string) (k : nat) (url : string)
    (filter : option (string → string)) (options : Options) (order : list nat) :
  urls !! k = Some url →
  (∀ body, request_get url ≠ Reply 200 body) →
  order ≡ₚ seq 0 (length urls) →
  ∃ j u e,
    urls !! j = Some u ∧
    ((∃ error, request_get u = TransportError error ∧
               e = Error ("Request error: " +:+ error))
     ∨ (∃ statusCode body,
           request_get u = Reply statusCode body ∧ statusCode ≠ 200%N ∧
           e = Error ("Error status code " +:+ pretty statusCode
                        +:+ " returned for URL: " +:+ u))) ∧
    fromListURL (Many urls) filter options order
    = Some (Rejected (Error ("getSingleListDataFromSingleURL error: "
                               +:+ error_toString e))).
Proof.
  intros Hk Hbad Hperm.
  destruct (fetch_not_200 url filter Hbad) as (e0 & He0 & _).
  set (ps := map (λ currentURL, fetch currentURL filter) urls).
  assert (ps !! k = Some (Rejected e0)) as Hpk.
  { unfold ps. change (map ?g urls) with (g <$> urls).
    by rewrite list_lookup_fmap, Hk; simpl; rewrite He0. }
  destruct (Promise_all_rejected ps k e0 order Hpk) as (j & e & Hj & Hall).
  { unfold complete_order, ps. by rewrite length_map. }
  unfold ps in Hj. change (map ?g urls) with (g <$> urls) in Hj.
  rewrite list_lookup_fmap in Hj.
  destruct (urls !! j) as [u|] eqn:Hu; [|done]. simpl in Hj.
  injection Hj as Hj.
  exists j, u, e. split; [done|]. split.
  - destruct (request_get u) as [error|statusCode body] eqn:E.
    + left. exists error. split; [done|].
      unfold getSingleListDataFromSingleURL in Hj. rewrite E in Hj.
      by injection Hj as <-.
    + right. exists statusCode, body.
      unfold getSingleListDataFromSingleURL in Hj. rewrite E in Hj.
      destruct (decide (statusCode ≠ 200%N)) as [Hne|]; [|done].
      by injection Hj as <-.
  - unfold makeAdBlockClientFromListURL. fold ps.
    by rewrite Hall.
Qed.

End Remote.

(** ** The transform registry *)

(** C8. The transform registered for [FBB430E8-3910-4761-9373-840FC3B43FF2],
    given a text of exactly four header lines followed by the lines d1, d2,
    d3, drops the four header lines, puts "||" before each remaining line
    in order and joins them with newline: "||d1\n||d2\n||d3".  For every
    other identifier there is no transform, and the fetched body goes on
    unchanged. *)
Theorem registered_transform (h1 h2 h3 h4 d1 d2 d3 : string) :
  Forall (λ line, has_nl line = false) [h1; h2; h3; h4; d1; d2; d3] →
  (∃ f, getListFilterFunction registered_uuid = Some f ∧
        f (join_nl [h1; h2; h3; h4; d1; d2; d3])
        = "||" +:+ d1 +:+ NL +:+ "||" +:+ d2 +:+ NL +:+ "||" +:+ d3) ∧
  (∀ uuid body, uuid ≠ registered_uuid →
     getListFilterFunction uuid = None ∧
     applyFilter (getListFilterFunction uuid) body = body).
Proof.
  intros Hlines. split.
  - unfold getListFilterFunction. rewrite decide_True by done.
    eexists. split; [done|]. cbv beta.
    by rewrite (split_join_nl [h1; h2; h3; h4; d1; d2; d3]).
  - intros uuid body Hne. unfold getListFilterFunction.
    by rewrite decide_False.
Qed.

(** ** Local files *)

Section LocalFile.

Variable readFileSync : string → JsError + string.
Variable Options : Type.

Lemma readFiles_all (paths contents : list string) :
  Forall2 (λ path content, readFileSync path = inr content) paths contents →
  readFiles readFileSync paths = inr contents.
Proof.
  induction 1 as [|path content paths contents H _ IH]; [done|].
  simpl. by rewrite H, IH.
Qed.

(** C5, as the code has it. For a local file source each file is read as
    text, in the order of the paths; the contents of several files are
    joined with newline, the content of a single path is taken as it is;
    the text goes to the engine split on newline.  No transform and no
    sanitizer is applied on the way. *)
Theorem local_files_verbatim (paths contents : list string) (path content : string)
    (options : Options) :
  Forall2 (λ p c, readFileSync p = inr c) paths contents →
  readFileSync path = inr content →
  makeAdBlockClientFromFilePath readFileSync Options (Many paths) options
  = Fulfilled (Engine (split_nl (join_nl contents))) ∧
  makeAdBlockClientFromFilePath readFileSync Options (One path) options
  = Fulfilled (Engine (split_nl content)).
Proof.
  intros Hall Hone. unfold makeAdBlockClientFromFilePath.
  by rewrite (readFiles_all paths contents Hall), Hone.
Qed.

End LocalFile.

(** ** The catalog lookup *)

Section CatalogLookup.

Variable sanitizeABPInput : string → string.
Variable request_get : string → FetchOutcome.
Variable Options : Type.
Variable lists : string → list ListDescriptor.
Variable globals : gmap string Value.

(** C2, as the code has it. The initializer of [let list] names [list]
    itself, which is not initialized yet: for every identifier, every
    catalog and every global object the call throws a [ReferenceError],
    before any catalog is searched. *)
Theorem list_uuid_always_throws (uuid : string) (options : Options)
    (order : list nat) :
  makeAdBlockClientFromListUUID sanitizeABPInput request_get Options lists
    globals uuid options order
  = Throw (ReferenceError "Cannot access 'list' before initialization").
Proof. reflexivity. Qed.

End CatalogLookup.

(** At an identifier of the [regions] catalog the lookup of the design
    document finds its entry; the code throws. *)
Lemma list_uuid_regions_entry :
  resolve_spec sample_lists "03F91310-9244-40FA-BCF6-DA31B832F34D"
  = Found (mkList "03F91310-9244-40FA-BCF6-DA31B832F34D"
                  "https://lists.example/b.txt") ∧
  makeAdBlockClientFromListUUID strip_cr sample_network unit sample_lists ∅
    "03F91310-9244-40FA-BCF6-DA31B832F34D" tt []
  = Throw (ReferenceError "Cannot access 'list' before initialization").
Proof. split; reflexivity. Qed.

(** At an identifier of no catalog the design document asks for a
    rejection with "No list found"; the code throws the same
    [ReferenceError]. *)
Lemma list_uuid_unknown :
  resolve_spec sample_lists "00000000-0000-0000-0000-000000000000"
  = NotFoundError ∧
  makeAdBlockClientFromListUUID strip_cr sample_network unit sample_lists ∅
    "00000000-0000-0000-0000-000000000000" tt []
  ≠ Normal (Some (Rejected (Error
      "No list found for UUID 00000000-0000-0000-0000-000000000000"))).
Proof. split; [reflexivity|discriminate]. Qed.

(** ** Source selection *)

(** C3. Past the usage guard, the source is selected by a fixed
    precedence, the first applicable flag winning (a flag applies when its
    value is truthy: present and not the empty string): the catalog
    identifier, then the snapshot file, then the remote URL, then the raw
    filter text, then the local file path; when none applies, the URLs of
    the built-in default catalog. *)
Theorem source_precedence (lists : string → list ListDescriptor)
    (commander : Commander) :
  proceeds commander = true →
  let uuid := commander_uuid commander in
  let dat := commander_dat commander in
  let http := commander_http commander in
  let filter := commander_filter commander in
  let filterPath := commander_filterPath commander in
  let selected := selectSource lists commander in
  (truthy uuid = true → selected = Some (CallListUUID uuid)) ∧
  (truthy uuid = false → truthy dat = true →
     selected = Some (CallDATFile dat)) ∧
  (truthy uuid = false → truthy dat = false → truthy http = true →
     selected = Some (CallListURL http)) ∧
  (truthy uuid = false → truthy dat = false → truthy http = false →
     truthy filter = true → selected = Some (CallString filter)) ∧
  (truthy uuid = false → truthy dat = false → truthy http = false →
     truthy filter = false → truthy filterPath = true →
     selected = Some (CallFilePath filterPath)) ∧
  (truthy uuid = false → truthy dat = false → truthy http = false →
     truthy filter = false → truthy filterPath = false →
     selected = Some (CallDefaultLists (map list_url (lists "default")))).
Proof.
  intros Hgo. unfold selectSource. rewrite Hgo. cbv zeta.
  repeat split; intros; repeat
    match goal with H : truthy _ = _ |- _ => rewrite H; clear H end; done.
Qed.

(** ** The query dispatcher *)

Section QueryDispatch.

Variable readFileSync : string → JsError + string.
Variable Stats : Type.
Variable Buffer : Type.
Variable getParsingStats : Client → Stats.
Variable check : Client → JsVal → JsVal → JsVal → bool.
Variable serialize : Client → Buffer.
Variable write_error : string → Buffer → option JsError.

#[local] Abbreviation Event' := (Event Stats Buffer).
#[local] Abbreviation handler :=
  (onFulfilled readFileSync Stats Buffer getParsingStats check serialize
     write_error).
#[local] Abbreviation persisted := (persist_events Stats Buffer serialize).
#[local] Abbreviation completion :=
  (persist_completion Buffer serialize write_error).
#[local] Abbreviation matched := (matching check).

(** The [check] call issued for one site of the list. *)
#[local] Abbreviation batch_call commander :=
  (λ site : string,
     check_call Stats Buffer (Some site)
       (Some (commander_filterOption commander)) (commander_host commander)).

Ltac run_simpl :=
  unfold mbind, Run_bind, rbind, do_check, do_write, emit, rret, lift; simpl.

(** The loop issues one call per element of the list, in order, and every
    element is counted once, as a match or as a skip. *)
Lemma forEach_site_run (commander : Commander) (adBlockClient : Client)
    (siteList : list string) (matchCount skipCount : nat) :
  forEach_site Stats Buffer check commander adBlockClient siteList
    matchCount skipCount
  = (map (batch_call commander) siteList,
     Normal (matchCount + matched commander adBlockClient siteList,
             skipCount + (length siteList
                          - matched commander adBlockClient siteList))).
Proof.
  revert matchCount skipCount.
  induction siteList as [|site rest IH]; intros matchCount skipCount.
  - simpl. unfold rret, matching. simpl. do 3 f_equal; lia.
  - assert (matched commander adBlockClient rest ≤ length rest) as Hle
      by apply List.filter_length_le.
    simpl. run_simpl. unfold matching in *. simpl.
    destruct (check adBlockClient (Some site) _ _); rewrite IH; simpl;
      do 3 f_equal; lia.
Qed.

Lemma matching_le (commander : Commander) (adBlockClient : Client)
    (siteList : list string) :
  matched commander adBlockClient siteList ≤ length siteList.
Proof. apply List.filter_length_le. Qed.

(** The events of the batch mode. *)
Lemma batch_run (commander : Commander) (adBlockClient : Client)
    (path content : string) :
  commander_stats commander = false →
  truthy (commander_location commander) = false →
  commander_list commander = Some path →
  readFileSync path = inr content →
  let siteList := split_nl content in
  let matchCount := matched commander adBlockClient siteList in
  handler commander adBlockClient
  = ([console_time Stats Buffer "check"]
       ++ map (batch_call commander) siteList
       ++ [console_timeEnd Stats Buffer "check";
           console_log Stats Buffer [LStr Stats "Matching:";
                                     LNum Stats matchCount];
           console_log Stats Buffer [LStr Stats "Skipped:";
                                     LNum Stats (length siteList - matchCount)]]
       ++ persisted commander adBlockClient,
     completion commander adBlockClient).
Proof.
  intros Hstats Hloc Hlist Hread. cbv zeta.
  unfold onFulfilled, persist_events, persist_completion.
  rewrite Hstats, Hloc, Hlist.
  unfold readSiteList. rewrite Hread. run_simpl.
  rewrite forEach_site_run. simpl.
  destruct (commander_output commander) as [[|c output]|]; simpl;
    rewrite <-?app_assoc; simpl; by rewrite ?app_nil_r.
Qed.

(** The events of the single mode. *)
Lemma single_run (commander : Commander) (adBlockClient : Client) :
  commander_stats commander = false →
  truthy (commander_location commander) = true →
  let location := commander_location commander in
  let origin := Some ("https://" +:+ template (commander_host commander)) in
  let type := Some (commander_filterOption commander) in
  handler commander adBlockClient
  = ([console_log Stats Buffer
        [LStr Stats "params:"; LVal Stats location;
         LStr Stats (commander_filterOption commander);
         LVal Stats (commander_host commander)];
      check_call Stats Buffer location origin type;
      console_log Stats Buffer
        [LStr Stats "Matches: ";
         LBool Stats (check adBlockClient location origin type)]]
       ++ persisted commander adBlockClient,
     completion commander adBlockClient).
Proof.
  intros Hstats Hloc. cbv zeta.
  unfold onFulfilled, persist_events, persist_completion.
  rewrite Hstats, Hloc. run_simpl.
  by destruct (commander_output commander) as [[|c output]|].
Qed.

(** The events of the stats mode: the handler returns after the report. *)
Lemma stats_run (commander : Commander) (adBlockClient : Client) :
  commander_stats commander = true →
  handler commander adBlockClient
  = ([console_log Stats Buffer
        [LStr Stats "Parsing stats:";
         LStats Stats (getParsingStats adBlockClient)]],
     Normal tt).
Proof. intros Hstats. unfold onFulfilled. by rewrite Hstats. Qed.

Lemma check_calls_app (ev1 ev2 : list Event') :
  check_calls Stats Buffer (ev1 ++ ev2)
  = check_calls Stats Buffer ev1 ++ check_calls Stats Buffer ev2.
Proof. apply omap_app. Qed.

Lemma writes_app (ev1 ev2 : list Event') :
  writes Stats Buffer (ev1 ++ ev2)
  = writes Stats Buffer ev1 ++ writes Stats Buffer ev2.
Proof. apply omap_app. Qed.

Lemma check_calls_batch (commander : Commander) (siteList : list string) :
  check_calls Stats Buffer (map (batch_call commander) siteList)
  = map (λ site, (Some site, Some (commander_filterOption commander),
                  commander_host commander)) siteList.
Proof.
  induction siteList as [|site rest IH]; [done|].
  cbn. f_equal. exact IH.
Qed.

Lemma check_calls_persisted (commander : Commander) (adBlockClient : Client) :
  check_calls Stats Buffer (persisted commander adBlockClient) = [].
Proof.
  unfold persist_events. destruct (commander_output commander) as [o|]; [|done].
  by destruct (truthy (Some o)).
Qed.

Lemma writes_batch (commander : Commander) (siteList : list string) :
  writes Stats Buffer (map (batch_call commander) siteList) = [].
Proof. induction siteList as [|site rest IH]; [done|]. by simpl. Qed.

(** The single mode hands the engine the location, the origin made from
    the host, and the resource type, in that order. *)
Lemma single_check_arguments (commander : Commander) (adBlockClient : Client) :
  commander_stats commander = false →
  truthy (commander_location commander) = true →
  check_calls Stats Buffer (handler commander adBlockClient).1
  = [(commander_location commander,
      Some ("https://" +:+ template (commander_host commander)),
      Some (commander_filterOption commander))].
Proof.
  intros Hstats Hloc. rewrite single_run by done. cbv zeta. simpl.
  by rewrite check_calls_persisted.
Qed.

(** The batch mode hands the engine, for each line of the site list, the
    line, then the resource type, then the bare host. *)
Lemma batch_check_arguments (commander : Commander) (adBlockClient : Client)
    (path content : string) :
  commander_stats commander = false →
  truthy (commander_location commander) = false →
  commander_list commander = Some path →
  readFileSync path = inr content →
  check_calls Stats Buffer (handler commander adBlockClient).1
  = map (λ site, (Some site, Some (commander_filterOption commander),
                  commander_host commander)) (split_nl content).
Proof.
  intros Hstats Hloc Hlist Hread.
  rewrite (batch_run _ _ path content) by done. cbv zeta. cbn [fst].
  rewrite !check_calls_app, check_calls_batch, check_calls_persisted.
  simpl. by rewrite app_nil_r.
Qed.

(** C10. The site list is the file content split on newline, nothing
    filtered out.  For a file that ends in a newline the loop therefore
    issues one more query, for the empty string after the last newline,
    and the two counts that are printed add up to the number of segments:
    for a file of non-empty lines, each ended by a newline, the number of
    lines plus one. *)
Theorem batch_counts_segments (commander : Commander) (adBlockClient : Client)
    (path body : string) :
  commander_stats commander = false →
  truthy (commander_location commander) = false →
  commander_list commander = Some path →
  readFileSync path = inr (body +:+ NL) →
  ∃ matchCount skipCount,
    (handler commander adBlockClient).1
    = [console_time Stats Buffer "check"]
        ++ map (batch_call commander) (split_nl body ++ [EmptyString])
        ++ [console_timeEnd Stats Buffer "check";
            console_log Stats Buffer [LStr Stats "Matching:";
                                      LNum Stats matchCount];
            console_log Stats Buffer [LStr Stats "Skipped:";
                                      LNum Stats skipCount]]
        ++ persisted commander adBlockClient ∧
    matchCount + skipCount = length (split_nl (body +:+ NL)) ∧
    matchCount + skipCount = S (length (split_nl body)) ∧
    (∀ lines, lines ≠ [] →
       Forall (λ line, has_nl line = false ∧ line ≠ EmptyString) lines →
       body = join_nl lines →
       matchCount + skipCount = S (length lines)).
Proof.
  intros Hstats Hloc Hlist Hread.
  set (siteList := split_nl (body +:+ NL)).
  pose proof (matching_le commander adBlockClient siteList) as Hle.
  assert (length siteList = S (length (split_nl body))) as Hlen.
  { unfold siteList. rewrite split_nl_trailing, length_app. simpl. lia. }
  exists (matched commander adBlockClient siteList),
         (length siteList - matched commander adBlockClient siteList).
  split; [|split; [|split]].
  - rewrite (batch_run _ _ path (body +:+ NL)) by done. cbv zeta. cbn [fst].
    unfold siteList. by rewrite split_nl_trailing.
  - lia.
  - lia.
  - intros lines Hne Hlines ->.
    rewrite split_join_nl in Hlen; [lia|done|].
    eapply Forall_impl; [exact Hlines|]. by intros ? [? _].
Qed.

(** C6, as the code has it. With an output path requested, after a single
    query, and after a batch of queries over a site list that could be
    read, the handler ends by serializing the client and calling
    [fs.writeFileSync] once, with that path: when the write succeeds the
    handler completes and the snapshot is on disk, when it throws the
    error is printed.  In stats mode the handler returns after the report
    and no write is attempted. *)
Theorem output_written_unless_stats (commander : Commander)
    (adBlockClient : Client) (output : string) :
  commander_output commander = Some output →
  truthy (Some output) = true →
  (commander_stats commander = false →
   truthy (commander_location commander) = true
   ∨ (∃ path content, commander_list commander = Some path ∧
                      readFileSync path = inr content) →
   ∃ ev,
     writes Stats Buffer ev = [] ∧
     handler commander adBlockClient
     = (ev ++ [writeFileSync Stats Buffer output (serialize adBlockClient)],
        match write_error output (serialize adBlockClient) with
        | Some e => Throw e
        | None => Normal tt
        end) ∧
     settle readFileSync Stats Buffer getParsingStats check serialize
       write_error commander (Fulfilled adBlockClient)
     = ev ++ [writeFileSync Stats Buffer output (serialize adBlockClient)]
          ++ match write_error output (serialize adBlockClient) with
             | Some e => [console_log Stats Buffer
                            [LStr Stats "Error:"; LErr Stats e]]
             | None => []
             end) ∧
  (commander_stats commander = true →
   writes Stats Buffer
     (settle readFileSync Stats Buffer getParsingStats check serialize
        write_error commander (Fulfilled adBlockClient)) = []).
Proof.
  intros Hout Htruthy.
  assert (persisted commander adBlockClient
          = [writeFileSync Stats Buffer output (serialize adBlockClient)])
    as Hpersisted by (unfold persist_events; by rewrite Hout, Htruthy).
  assert (completion commander adBlockClient
          = match write_error output (serialize adBlockClient) with
            | Some e => Throw e
            | None => Normal tt
            end)
    as Hcompletion by (unfold persist_completion; by rewrite Hout, Htruthy).
  split.
  - intros Hstats Htarget.
    assert (∃ ev, writes Stats Buffer ev = [] ∧
                  handler commander adBlockClient
                  = (ev ++ persisted commander adBlockClient,
                     completion commander adBlockClient))
      as (ev & Hev & Hrun).
    { destruct (truthy (commander_location commander)) eqn:Hloc.
      - rewrite single_run by done. cbv zeta.
        eexists. split; [|reflexivity]. done.
      - destruct Htarget as [|(path & content & Hlist & Hread)]; [done|].
        rewrite (batch_run _ _ path content) by done. cbv zeta.
        eexists. rewrite !app_assoc. split; [|done].
        by rewrite !writes_app, writes_batch. }
    exists ev. split; [done|]. unfold settle.
    rewrite Hrun, Hpersisted, Hcompletion.
    split; [done|].
    destruct (write_error output (serialize adBlockClient));
      by rewrite <-?app_assoc, ?app_nil_r.
  - intros Hstats. unfold settle. by rewrite stats_run.
Qed.

End QueryDispatch.

(** ** Worked examples *)

(** Three lists whose fetches complete in the order third, first, second. *)
Lemma aggregation_three_parts_example :
  makeAdBlockClientFromListURL strip_cr sample_network unit
    (Many ["https://lists.example/a.txt"; "https://lists.example/b.txt";
           "https://lists.example/c.txt"]) None tt [2; 0; 1]
  = Some (Fulfilled (Engine ["||a.example^"; "||b.example^"; "||b2.example^";
                             "||c.example^"])).
Proof.
  apply (aggregation_three_parts strip_cr sample_network unit
           "https://lists.example/a.txt" "https://lists.example/b.txt"
           "https://lists.example/c.txt" body_a body_b body_c tt [2; 0; 1]).
  - reflexivity.
  - reflexivity.
  - reflexivity.
  - exact (Permutation_app_comm [2] [0; 1]).
Defined.

(** One list, with a transform that drops the first line. *)
Lemma single_url_example :
  makeAdBlockClientFromListURL strip_cr sample_network unit
    (One "https://lists.example/b.txt")
    (Some (λ input, join_nl (drop 1 (split_nl input)))) tt []
  = Some (Fulfilled (Engine ["||b2.example^"])).
Proof.
  apply (single_url_sanitized_twice strip_cr sample_network unit
           "https://lists.example/b.txt" body_b
           (λ input, join_nl (drop 1 (split_nl input))) tt []).
  reflexivity.
Defined.

(** Three lists, the second of which answers 404. *)
Lemma aggregation_fails_example :
  let urls := ["https://lists.example/a.txt"; "https://lists.example/gone.txt";
               "https://lists.example/c.txt"] in
  ∃ j u e,
    urls !! j = Some u ∧
    ((∃ error, sample_network u = TransportError error ∧
               e = Error ("Request error: " +:+ error))
     ∨ (∃ statusCode body,
           sample_network u = Reply statusCode body ∧ statusCode ≠ 200%N ∧
           e = Error ("Error status code " +:+ pretty statusCode
                        +:+ " returned for URL: " +:+ u))) ∧
    makeAdBlockClientFromListURL strip_cr sample_network unit (Many urls)
      None tt [2; 0; 1]
    = Some (Rejected (Error ("getSingleListDataFromSingleURL error: "
                               +:+ error_toString e))).
Proof.
  apply (aggregation_fails_as_a_whole strip_cr sample_network unit
           ["https://lists.example/a.txt"; "https://lists.example/gone.txt";
            "https://lists.example/c.txt"]
           1 "https://lists.example/gone.txt" None tt [2; 0; 1]).
  - reflexivity.
  - intros body. vm_compute. discriminate.
  - exact (Permutation_app_comm [2] [0; 1]).
Defined.

(** What the failed aggregation is rejected with. *)
Lemma aggregation_fails_message :
  makeAdBlockClientFromListURL strip_cr sample_network unit
    (Many ["https://lists.example/a.txt"; "https://lists.example/gone.txt";
           "https://lists.example/c.txt"]) None tt [2; 0; 1]
  = Some (Rejected (Error
      "getSingleListDataFromSingleURL error: Error: Error status code 404 returned for URL: https://lists.example/gone.txt")).
Proof. vm_compute. reflexivity. Qed.

(** The registered transform on a list of three domains. *)
Lemma registered_transform_example :
  (∃ f, getListFilterFunction registered_uuid = Some f ∧
        f (join_nl ["# title"; "# updated"; "# licence"; "#";
                    "a.example"; "b.example"; "c.example"])
        = "||" +:+ "a.example" +:+ NL +:+ "||" +:+ "b.example" +:+ NL
            +:+ "||" +:+ "c.example") ∧
  (∀ uuid body, uuid ≠ registered_uuid →
     getListFilterFunction uuid = None ∧
     applyFilter (getListFilterFunction uuid) body = body).
Proof.
  apply (registered_transform "# title" "# updated" "# licence" "#"
           "a.example" "b.example" "c.example").
  repeat constructor.
Defined.

(** A run with both a catalog identifier and a URL: the identifier wins. *)
Lemma source_precedence_example :
  selectSource sample_lists stats_commander
  = Some (CallListUUID (Some "67F880F5-7602-4042-8A3D-01481FD7437A")).
Proof.
  exact (proj1 (source_precedence sample_lists stats_commander eq_refl) eq_refl).
Defined.

(** Two files read from disk: the carriage return of the file stays. *)
Lemma local_files_example :
  makeAdBlockClientFromFilePath sample_files unit
    (Many ["rules.txt"; "rules.txt"]) tt
  = Fulfilled (Engine ["||a.example^" +:+ String cr EmptyString; "||b.example^";
                       "||a.example^" +:+ String cr EmptyString; "||b.example^"]) ∧
  makeAdBlockClientFromFilePath sample_files unit (One "rules.txt") tt
  = Fulfilled (Engine ["||a.example^" +:+ String cr EmptyString; "||b.example^"]).
Proof.
  apply (local_files_verbatim sample_files unit ["rules.txt"; "rules.txt"]
           [rules_txt; rules_txt] "rules.txt" rules_txt tt).
  - repeat constructor.
  - reflexivity.
Defined.

(** C5, as stated, fails: the rules handed to the engine for local files
    are not those of the sanitized parts, whether the parts are sanitized
    one by one or the joined text is sanitized again as well. *)
Lemma local_files_not_sanitized :
  let contents := [rules_txt; rules_txt] in
  readFiles sample_files ["rules.txt"; "rules.txt"] = inr contents ∧
  makeAdBlockClientFromFilePath sample_files unit
    (Many ["rules.txt"; "rules.txt"]) tt
  ≠ Fulfilled (Engine (split_nl (join_nl (map strip_cr contents)))) ∧
  makeAdBlockClientFromFilePath sample_files unit
    (Many ["rules.txt"; "rules.txt"]) tt
  ≠ Fulfilled (Engine (split_nl (strip_cr (join_nl (map strip_cr contents))))).
Proof. vm_compute. repeat split; discriminate. Qed.

#[local] Abbreviation sample_settle :=
  (settle sample_files nat (list string) sample_getParsingStats sample_check
     sample_serialize sample_write_error).
#[local] Abbreviation sample_handler :=
  (onFulfilled sample_files nat (list string) sample_getParsingStats
     sample_check sample_serialize sample_write_error).

(** C4, as the code has it. In batch mode over the site list
    [sites.txt], with host [www.cnet.com] and the default resource type
    [image], each line reaches the engine as (line, "image",
    "www.cnet.com"): the resource type stands where the origin belongs,
    and the bare host where the resource type belongs.  The single mode
    would have issued (line, "https://www.cnet.com", "image"). *)
Theorem batch_check_arguments_swapped :
  check_calls nat (list string)
    (sample_settle sample_commander (Fulfilled sample_client))
  = [(Some "https://a.example/x.js", Some "image", Some "www.cnet.com");
     (Some "https://b.example/y.js", Some "image", Some "www.cnet.com");
     (Some EmptyString, Some "image", Some "www.cnet.com")] ∧
  check_calls nat (list string)
    (sample_settle sample_commander (Fulfilled sample_client))
  ≠ map (λ site, (Some site, Some "https://www.cnet.com", Some "image"))
        (split_nl (sites_body +:+ NL)).
Proof. vm_compute. split; [reflexivity|discriminate]. Qed.

(** The same query in single mode, for comparison. *)
Lemma single_check_arguments_example :
  let commander :=
    {| commander_uuid := None; commander_dat := None; commander_filter := None;
       commander_filterPath := None; commander_http := None;
       commander_host := Some "www.cnet.com";
       commander_location := Some "https://a.example/x.js";
       commander_output := None; commander_list := None;
       commander_stats := false; commander_cache := false;
       commander_filterOption := "image" |} in
  check_calls nat (list string)
    (sample_settle commander (Fulfilled sample_client))
  = [(Some "https://a.example/x.js", Some "https://www.cnet.com", Some "image")].
Proof. vm_compute. reflexivity. Qed.

(** A site list of two lines ended by a newline: three queries, the last
    one for the empty string, and counts that add up to three. *)
Lemma batch_counts_example :
  ∃ matchCount skipCount,
    (sample_handler sample_commander sample_client).1
    = [console_time nat (list string) "check"]
        ++ map (λ site, check_call nat (list string) (Some site)
                          (Some "image") (Some "www.cnet.com"))
               (split_nl sites_body ++ [EmptyString])
        ++ [console_timeEnd nat (list string) "check";
            console_log nat (list string)
              [LStr nat "Matching:"; LNum nat matchCount];
            console_log nat (list string)
              [LStr nat "Skipped:"; LNum nat skipCount]]
        ++ persist_events nat (list string) sample_serialize
             sample_commander sample_client ∧
    matchCount + skipCount = length (split_nl (sites_body +:+ NL)) ∧
    matchCount + skipCount = S (length (split_nl sites_body)) ∧
    (∀ lines, lines ≠ [] →
       Forall (λ line, has_nl line = false ∧ line ≠ EmptyString) lines →
       sites_body = join_nl lines →
       matchCount + skipCount = S (length lines)).
Proof.
  apply (batch_counts_segments sample_files nat (list string)
           sample_getParsingStats sample_check sample_serialize
           sample_write_error sample_commander sample_client "sites.txt"
           sites_body).
  - reflexivity.
  - reflexivity.
  - reflexivity.
  - reflexivity.
Defined.

(** What that run prints. *)
Lemma batch_counts_printed :
  sample_settle sample_commander (Fulfilled sample_client)
  = [console_time nat (list string) "check";
     check_call nat (list string) (Some "https://a.example/x.js")
       (Some "image") (Some "www.cnet.com");
     check_call nat (list string) (Some "https://b.example/y.js")
       (Some "image") (Some "www.cnet.com");
     check_call nat (list string) (Some EmptyString)
       (Some "image") (Some "www.cnet.com");
     console_timeEnd nat (list string) "check";
     console_log nat (list string) [LStr nat "Matching:"; LNum nat 1];
     console_log nat (list string) [LStr nat "Skipped:"; LNum nat 2]].
Proof. vm_compute. reflexivity. Qed.

#[local] Abbreviation sample_script :=
  (main strip_cr sample_network sample_files sample_readFile sample_lists ∅
     nat (list string) sample_getParsingStats sample_check sample_serialize
     sample_write_error sample_deserialize).

(** C6, as stated, fails: a stats run over the default lists with an
    output path.  The script fetches the lists and builds the client, the
    handler prints its stats and returns, and no write is attempted. *)
Lemma stats_run_writes_nothing :
  commander_output stats_output_commander = Some "out.dat" ∧
  sample_script stats_output_commander [0]
  = Completed nat (list string)
      [log_defaultLists nat (list string) ["https://lists.example/a.txt"];
       handled nat (list string)
         (console_log nat (list string)
            [LStr nat "Parsing stats:"; LStats nat 1])] ∧
  sample_settle stats_output_commander (Fulfilled (Engine ["||a.example^"]))
  = [console_log nat (list string) [LStr nat "Parsing stats:"; LStats nat 1]] ∧
  writes nat (list string)
    (sample_settle stats_output_commander (Fulfilled (Engine ["||a.example^"])))
  = [].
Proof. vm_compute. repeat split; reflexivity. Qed.

(** A batch run over the default lists with an output path: the
    snapshot of the client that the run builds is written last. *)
Lemma output_written_example :
  ∃ ev,
    writes nat (list string) ev = [] ∧
    sample_handler batch_commander (Engine ["||a.example^"])
    = (ev ++ [writeFileSync nat (list string) "out.dat" ["||a.example^"]],
       Normal tt) ∧
    sample_settle batch_commander (Fulfilled (Engine ["||a.example^"]))
    = ev ++ [writeFileSync nat (list string) "out.dat" ["||a.example^"]].
Proof.
  apply (proj1 (output_written_unless_stats sample_files nat (list string)
                  sample_getParsingStats sample_check sample_serialize
                  sample_write_error batch_commander
                  (Engine ["||a.example^"]) "out.dat" eq_refl eq_refl)).
  - reflexivity.
  - right. exists "sites.txt", (sites_body +:+ NL). split; reflexivity.
Defined.

(** That run from start to end. *)
Lemma output_written_run :
  sample_script batch_commander [0]
  = Completed nat (list string)
      (log_defaultLists nat (list string) ["https://lists.example/a.txt"]
       :: (handled nat (list string) <$>
           [console_time nat (list string) "check";
            check_call nat (list string) (Some "https://a.example/x.js")
              (Some "image") (Some "www.cnet.com");
            check_call nat (list string) (Some "https://b.example/y.js")
              (Some "image") (Some "www.cnet.com");
            check_call nat (list string) (Some EmptyString)
              (Some "image") (Some "www.cnet.com");
            console_timeEnd nat (list string) "check";
            console_log nat (list string) [LStr nat "Matching:"; LNum nat 0];
            console_log nat (list string) [LStr nat "Skipped:"; LNum nat 3];
            writeFileSync nat (list string) "out.dat" ["||a.example^"]])).
Proof. vm_compute. reflexivity. Qed.

(** The same run with an output path that cannot be written: the write is
    the last call, it throws, and the error is printed. *)
Lemma output_unwritable_example :
  sample_settle readonly_commander (Fulfilled sample_client)
  = [console_time nat (list string) "check";
     check_call nat (list string) (Some "https://a.example/x.js")
       (Some "image") (Some "www.cnet.com");
     check_call nat (list string) (Some "https://b.example/y.js")
       (Some "image") (Some "www.cnet.com");
     check_call nat (list string) (Some EmptyString)
       (Some "image") (Some "www.cnet.com");
     console_timeEnd nat (list string) "check";
     console_log nat (list string) [LStr nat "Matching:"; LNum nat 1];
     console_log nat (list string) [LStr nat "Skipped:"; LNum nat 2];
     writeFileSync nat (list string) "/readonly/out.dat"
       ["https://a.example/x.js"];
     console_log nat (list string)
       [LStr nat "Error:";
        LErr nat (Error "EACCES: permission denied, open '/readonly/out.dat'")]].
Proof. vm_compute. reflexivity. Qed.

(* ================================================================== *)
(** * Further properties of the code *)
(* ================================================================== *)

(** ** Text and lines *)

Lemma join_split_nl (s : string) : join_nl (split_nl s) = s.
Proof.
  induction s as [|c r IH]; [done|].
  simpl. destruct (split_nl r) as [|h t] eqn:E.
  { by destruct (split_nl_not_nil r). }
  case_decide as Hc.
  - subst c. change (join_nl (EmptyString :: h :: t))
      with (EmptyString +:+ NL +:+ join_nl (h :: t)).
    by rewrite IH.
  - destruct t as [|h' t]; simpl in *; by rewrite <-IH.
Qed.

Lemma split_nl_app_line (x r : string) :
  split_nl (x +:+ NL +:+ r) = split_nl x ++ split_nl r.
Proof.
  induction x as [|c x IH]; [done|].
  change (String c x +:+ NL +:+ r) with (String c (x +:+ NL +:+ r)).
  simpl. rewrite IH. case_decide; [done|].
  destruct (split_nl x) as [|h t] eqn:E; [|done].
  by destruct (split_nl_not_nil x).
Qed.

Lemma split_nl_segments (s : string) :
  Forall (λ segment, has_nl segment = false) (split_nl s).
Proof.
  induction s as [|c r IH]; [by repeat constructor|].
  simpl. case_decide as Hc; [by constructor|].
  destruct (split_nl r) as [|h t] eqn:E; [by destruct (split_nl_not_nil r)|].
  inversion IH; subst. constructor; [|done].
  simpl. by rewrite decide_False.
Qed.

Lemma split_join_concat (a : list string) :
  a ≠ [] → split_nl (join_nl a) = concat (map split_nl a).
Proof.
  induction a as [|x [|y rest] IH]; intros Hne; [done| |].
  - simpl. by rewrite app_nil_r.
  - change (join_nl (x :: y :: rest)) with (x +:+ NL +:+ join_nl (y :: rest)).
    rewrite split_nl_app_line, IH by done. done.
Qed.

(** X1. An array of rule texts reaches the engine as the lines of its
    elements, in order: an element that holds several lines gives several
    rules, and nothing is dropped.  The empty array gives one empty rule,
    not an empty rule set. *)
Theorem string_array_rules (Options : Type) (a : list string) (options : Options) :
  makeAdBlockClientFromString Options (Many a) options
  = Fulfilled (Engine (match a with
                       | [] => [EmptyString]
                       | _ => concat (map split_nl a)
                       end)).
Proof.
  unfold makeAdBlockClientFromString. destruct a as [|x a]; [done|].
  by rewrite split_join_concat.
Qed.

(** X2. A site list that can be read is never empty: it has one site more
    than the file has newlines, no site holds a newline, and the sites
    joined with newline give back the content of the file, so no line is
    trimmed, skipped or merged. *)
Theorem site_list_lossless (readFileSync : string → JsError + string)
    (path content : string) :
  readFileSync path = inr content →
  ∃ sites,
    readSiteList readFileSync (Some path) = Normal sites ∧
    sites ≠ [] ∧
    length sites = S (count_nl content) ∧
    Forall (λ site, has_nl site = false) sites ∧
    join_nl sites = content.
Proof.
  intros Hread. exists (split_nl content). unfold readSiteList. rewrite Hread.
  split; [done|]. split; [apply split_nl_not_nil|].
  split; [apply length_split_nl|].
  split; [apply split_nl_segments|apply join_split_nl].
Qed.

Lemma site_list_lossless_example :
  ∃ sites,
    readSiteList sample_files (Some "sites.txt") = Normal sites ∧
    sites ≠ [] ∧
    length sites = S (count_nl (sites_body +:+ NL)) ∧
    Forall (λ site, has_nl site = false) sites ∧
    join_nl sites = sites_body +:+ NL.
Proof.
  apply (site_list_lossless sample_files "sites.txt" (sites_body +:+ NL)).
  reflexivity.
Defined.

(** ** The transform of the registered list *)

(** X3. The registered transform takes the first four lines for a header
    whatever they hold: applied to a text of fewer than five lines it
    returns the empty text. *)
Theorem registered_transform_short_input (f : string → string) (input : string) :
  getListFilterFunction registered_uuid = Some f →
  count_nl input < 4 →
  f input = EmptyString.
Proof.
  unfold getListFilterFunction. rewrite decide_True by done.
  intros [= <-] Hshort.
  rewrite drop_ge; [done|]. rewrite length_split_nl. lia.
Qed.

Lemma registered_transform_short_example :
  ∃ f, getListFilterFunction registered_uuid = Some f ∧
       f ("a.example" +:+ NL +:+ "b.example" +:+ NL +:+ "c.example"
            +:+ NL +:+ "d.example") = EmptyString.
Proof.
  eexists. split; [reflexivity|].
  apply (registered_transform_short_input _
           ("a.example" +:+ NL +:+ "b.example" +:+ NL +:+ "c.example"
              +:+ NL +:+ "d.example")).
  - reflexivity.
  - vm_compute. lia.
Defined.

(** X4. For a header of four lines followed by any number of entries, one
    per line, the registered transform returns the entries, each with "||"
    in front, in the same order and number, joined with newline. *)
Theorem registered_transform_entries (f : string → string)
    (header entries : list string) :
  getListFilterFunction registered_uuid = Some f →
  length header = 4 →
  Forall (λ line, has_nl line = false) (header ++ entries) →
  f (join_nl (header ++ entries))
  = join_nl (map (λ entry, "||" +:+ entry) entries).
Proof.
  unfold getListFilterFunction. rewrite decide_True by done.
  intros [= <-] Hlen Hlines.
  rewrite split_join_nl; [|by destruct header|done].
  by rewrite drop_app_length'.
Qed.

Lemma registered_transform_entries_example :
  ∃ f, getListFilterFunction registered_uuid = Some f ∧
       f (join_nl (["# title"; "# updated"; "# licence"; "#"]
                     ++ ["a.example"; "b.example"]))
       = join_nl (map (λ entry, "||" +:+ entry) ["a.example"; "b.example"]).
Proof.
  eexists. split; [reflexivity|].
  apply (registered_transform_entries _
           ["# title"; "# updated"; "# licence"; "#"]
           ["a.example"; "b.example"]).
  - reflexivity.
  - reflexivity.
  - repeat constructor.
Defined.

(** ** More on [Promise.all] *)

Section PromiseAllOrder.

Context {A : Type}.
Implicit Types (ps : list (Settled A)) (st : AllState A) (order : list nat).

(** As long as fewer promises have been fulfilled than there are, the
    result stays pending. *)
Lemma all_run_pending ps (done_ : list nat) st :
  (∀ i, i ∈ done_ → ∃ v, ps !! i = Some (Fulfilled v)) →
  all_outcome st = None →
  length done_ < all_remaining st →
  all_outcome (foldl (all_step ps) st done_) = None ∧
  all_remaining (foldl (all_step ps) st done_)
  = all_remaining st - length done_.
Proof.
  revert st. induction done_ as [|i rest IH]; intros st Hall Hpend Hlt.
  - simpl. split; [done|lia].
  - simpl in *. destruct (Hall i) as [v Hv]; [by left|].
    assert (all_step ps st i
            = mkAll (<[i:=Some v]> (all_values st)) (pred (all_remaining st))
                    None) as Hstep.
    { unfold all_step. rewrite Hpend, Hv. simpl.
      rewrite decide_False by lia. done. }
    rewrite Hstep. destruct (IH (mkAll (<[i:=Some v]> (all_values st))
                                   (pred (all_remaining st)) None)) as [H1 H2].
    + intros j Hj. apply Hall. by right.
    + done.
    + simpl. lia.
    + split; [done|]. rewrite H2. simpl. lia.
Qed.

Lemma Promise_all_pending ps order :
  (∀ i, i ∈ order → ∃ v, ps !! i = Some (Fulfilled v)) →
  length order < length ps →
  Promise_all ps order = None.
Proof.
  intros Hall Hlt. unfold Promise_all.
  apply all_run_pending; [done| |done].
  destruct ps; [simpl in Hlt; lia|done].
Qed.

(** The first rejection in time decides. *)
Lemma Promise_all_first_rejection ps (earlier later : list nat) (k : nat)
    (e : JsError) :
  (∀ i, i ∈ earlier → ∃ v, ps !! i = Some (Fulfilled v)) →
  ps !! k = Some (Rejected e) →
  length earlier < length ps →
  Promise_all ps (earlier ++ k :: later) = Some (Rejected e).
Proof.
  intros Hall Hk Hlt. unfold Promise_all. rewrite foldl_app. simpl.
  destruct (all_run_pending ps earlier (all_init ps)) as [Hpend _];
    [done| |done|].
  { destruct ps; [simpl in Hlt; lia|done]. }
  set (st := foldl (all_step ps) (all_init ps) earlier) in *.
  apply all_run_settled. unfold all_step. by rewrite Hpend, Hk.
Qed.

End PromiseAllOrder.

(** ** More on remote lists *)

Section RemoteMore.

Variable sanitizeABPInput : string → string.
Variable request_get : string → FetchOutcome.
Variable Options : Type.

#[local] Abbreviation fetch' :=
  (getSingleListDataFromSingleURL sanitizeABPInput request_get).
#[local] Abbreviation fromListURL' :=
  (makeAdBlockClientFromListURL sanitizeABPInput request_get Options).

(** X5. A fetch is fulfilled exactly when the answer has status 200, and
    then with the sanitized result of the transform applied to the body:
    the transform runs before the sanitizer.  Every other status, 204 or
    304 as well as 404, and every transport error give a rejection. *)
Theorem fetch_fulfilled_iff_200 (url text : string)
    (filter : option (string → string)) :
  fetch' url filter = Fulfilled text
  ↔ ∃ body, request_get url = Reply 200 body ∧
            text = sanitizeABPInput (applyFilter filter body).
Proof.
  unfold getSingleListDataFromSingleURL. split.
  - destruct (request_get url) as [error|statusCode body]; [done|].
    destruct (decide (statusCode ≠ 200%N)) as [|Heq]; [done|].
    apply dec_stable in Heq as ->. intros [= <-]. by exists body.
  - intros (body & -> & ->). by rewrite decide_False by (intros H; by apply H).
Qed.

(** X6. The buffer function fetches in the same way, so with an idempotent
    sanitizer the second pass over a single list changes nothing: the
    client built from a single URL is the client built from the text that
    [getListBufferFromURL] returns for it, and a failed fetch is reported
    with the same error, wrapped once. *)
Theorem single_url_from_list_buffer (url : string)
    (filter : option (string → string)) (options : Options) (order : list nat) :
  (∀ text, sanitizeABPInput (sanitizeABPInput text) = sanitizeABPInput text) →
  fromListURL' (One url) filter options order
  = match getListBufferFromURL sanitizeABPInput request_get url filter with
    | Fulfilled text =>
        Some (makeAdBlockClientFromString Options (One text) options)
    | Rejected error =>
        Some (Rejected (Error ("getSingleListDataFromSingleURL error: "
                                 +:+ error_toString error)))
    end.
Proof.
  intros Hidem.
  unfold makeAdBlockClientFromListURL, getListBufferFromURL,
    getSingleListDataFromSingleURL.
  destruct (request_get url) as [error|statusCode body]; [done|].
  destruct (decide (statusCode ≠ 200%N)); [done|].
  by rewrite Hidem.
Qed.

(** X7. An empty array of URLs is no error: the promise is fulfilled at
    once, whatever the order given, with a client built from the
    sanitizer's output for the empty text. *)
Theorem aggregation_of_nothing (filter : option (string → string))
    (options : Options) (order : list nat) :
  fromListURL' (Many []) filter options order
  = Some (Fulfilled (Engine (split_nl (sanitizeABPInput EmptyString)))).
Proof.
  unfold makeAdBlockClientFromListURL, Promise_all. simpl.
  by rewrite (all_run_settled [] order _ (Fulfilled [])).
Qed.

(** X8. An array of one URL and that URL on its own give the same promise,
    in success and in failure. *)
Theorem singleton_array_same_as_single (url : string)
    (filter : option (string → string)) (options : Options)
    (order order' : list nat) :
  order ≡ₚ seq 0 1 →
  makeAdBlockClientFromListURL sanitizeABPInput request_get Options
    (Many [url]) filter options order
  = makeAdBlockClientFromListURL sanitizeABPInput request_get Options
      (One url) filter options order'.
Proof.
  intros Hperm. apply Permutation_singleton_r in Hperm as ->.
  unfold makeAdBlockClientFromListURL, Promise_all. simpl.
  unfold all_step. simpl.
  by destruct (fetch' url filter) as [text|e].
Qed.

(** X9. When several fetches fail, the aggregation reports the one that
    failed first in time, not the first in the order of the URLs: if all
    fetches that completed earlier were answered with 200, the promise is
    rejected with the error of this fetch, whatever happens later. *)
Theorem aggregation_reports_first_failure (urls : list string)
    (earlier later : list nat) (k : nat) (url : string) (e : JsError)
    (filter : option (string → string)) (options : Options) :
  (∀ i, i ∈ earlier →
     ∃ u body, urls !! i = Some u ∧ request_get u = Reply 200 body) →
  urls !! k = Some url →
  fetch' url filter = Rejected e →
  length earlier < length urls →
  fromListURL' (Many urls) filter options (earlier ++ k :: later)
  = Some (Rejected (Error ("getSingleListDataFromSingleURL error: "
                             +:+ error_toString e))).
Proof.
  intros Hearlier Hk He Hlt. unfold makeAdBlockClientFromListURL.
  rewrite (Promise_all_first_rejection _ earlier later k e); [done| | |].
  - intros i Hi. destruct (Hearlier i Hi) as (u & body & Hu & Hget).
    eexists. change (map ?g urls) with (g <$> urls).
    rewrite list_lookup_fmap, Hu. simpl. f_equal.
    by apply fetch_200.
  - change (map ?g urls) with (g <$> urls).
    by rewrite list_lookup_fmap, Hk; simpl; rewrite He.
  - by rewrite length_map.
Qed.

(** X10. There is no timeout: as long as a fetch has not completed, and
    those that have were answered with 200, the promise stays pending; no
    client is built from a part of the lists. *)
Theorem aggregation_waits_for_all (urls : list string) (completed : list nat)
    (filter : option (string → string)) (options : Options) :
  (∀ i, i ∈ completed →
     ∃ u body, urls !! i = Some u ∧ request_get u = Reply 200 body) →
  length completed < length urls →
  makeAdBlockClientFromListURL sanitizeABPInput request_get Options
    (Many urls) filter options completed = None.
Proof.
  intros Hcompleted Hlt. unfold makeAdBlockClientFromListURL.
  rewrite Promise_all_pending; [done| |by rewrite length_map].
  intros i Hi. destruct (Hcompleted i Hi) as (u & body & Hu & Hget).
  eexists. change (map ?g urls) with (g <$> urls).
  rewrite list_lookup_fmap, Hu. simpl. f_equal. by apply fetch_200.
Qed.

End RemoteMore.

Lemma strip_cr_idempotent (s : string) : strip_cr (strip_cr s) = strip_cr s.
Proof.
  induction s as [|c r IH]; [done|].
  simpl. case_decide as Hc; [done|]. simpl. by rewrite decide_False, IH.
Qed.

Lemma single_url_from_list_buffer_example :
  makeAdBlockClientFromListURL strip_cr sample_network unit
    (One "https://lists.example/a.txt") None tt []
  = match getListBufferFromURL strip_cr sample_network
            "https://lists.example/a.txt" None with
    | Fulfilled text => Some (makeAdBlockClientFromString unit (One text) tt)
    | Rejected error =>
        Some (Rejected (Error ("getSingleListDataFromSingleURL error: "
                                 +:+ error_toString error)))
    end.
Proof.
  apply (single_url_from_list_buffer strip_cr sample_network unit
           "https://lists.example/a.txt" None tt []).
  exact strip_cr_idempotent.
Defined.

Lemma singleton_array_example :
  makeAdBlockClientFromListURL strip_cr sample_network unit
    (Many ["https://lists.example/gone.txt"]) None tt [0]
  = makeAdBlockClientFromListURL strip_cr sample_network unit
      (One "https://lists.example/gone.txt") None tt [].
Proof.
  apply (singleton_array_same_as_single strip_cr sample_network unit
           "https://lists.example/gone.txt" None tt [0] []).
  reflexivity.
Defined.

(** Two of three lists fail; the one that fails first in time, the third
    of the array, is the one reported. *)
Lemma aggregation_reports_first_failure_example :
  makeAdBlockClientFromListURL strip_cr sample_network unit
    (Many ["https://lists.example/a.txt"; "https://lists.example/gone.txt";
           "https://down.example/c.txt"]) None tt ([0] ++ 2 :: [1])
  = Some (Rejected (Error ("getSingleListDataFromSingleURL error: "
       +:+ error_toString (Error "Request error: Error: getaddrinfo ENOTFOUND")))).
Proof.
  apply (aggregation_reports_first_failure strip_cr sample_network unit
           ["https://lists.example/a.txt"; "https://lists.example/gone.txt";
            "https://down.example/c.txt"] [0] [1] 2
           "https://down.example/c.txt").
  - intros i Hi. apply list_elem_of_singleton in Hi as ->.
    exists "https://lists.example/a.txt", body_a. split; reflexivity.
  - reflexivity.
  - reflexivity.
  - simpl. lia.
Defined.

Lemma aggregation_waits_for_all_example :
  makeAdBlockClientFromListURL strip_cr sample_network unit
    (Many ["https://lists.example/a.txt"; "https://lists.example/b.txt"])
    None tt [1]
  = None.
Proof.
  apply (aggregation_waits_for_all strip_cr sample_network unit
           ["https://lists.example/a.txt"; "https://lists.example/b.txt"] [1]).
  - intros i Hi. apply list_elem_of_singleton in Hi as ->.
    exists "https://lists.example/b.txt", body_b. split; reflexivity.
  - simpl. lia.
Defined.

(** ** More on local files and snapshots *)

Section FilesMore.

Variable readFileSync : string → JsError + string.
Variable readFile : string → JsError + NodeBuffer.
Variable deserialize : Client → list Byte.byte → Completion Client.
Variable Options : Type.

Lemma readFiles_first_error (readable : list string) (contents : list string)
    (path : string) (e : JsError) (rest : list string) :
  Forall2 (λ p c, readFileSync p = inr c) readable contents →
  readFileSync path = inl e →
  readFiles readFileSync (readable ++ path :: rest) = inl e.
Proof.
  induction 1 as [|p c readable contents Hp _ IH]; intros He; simpl.
  - by rewrite He.
  - by rewrite Hp, IH.
Qed.

(** X11. When a file of the array cannot be read, the promise is rejected
    with the error of the first such file in the order of the paths, and
    no client is built from the files that could be read; the same holds
    for a single path. *)
Theorem unreadable_file_rejects (readable contents : list string)
    (path : string) (e : JsError) (rest : list string) (options : Options) :
  Forall2 (λ p c, readFileSync p = inr c) readable contents →
  readFileSync path = inl e →
  makeAdBlockClientFromFilePath readFileSync Options
    (Many (readable ++ path :: rest)) options = Rejected e ∧
  makeAdBlockClientFromFilePath readFileSync Options (One path) options
  = Rejected e.
Proof.
  intros Hreadable He. unfold makeAdBlockClientFromFilePath.
  by rewrite (readFiles_first_error readable contents path e rest), He.
Qed.

Lemma DATFile_read (datFilePath : string) (data : NodeBuffer) :
  readFile datFilePath = inr data →
  makeAdBlockClientFromDATFile readFile deserialize datFilePath
  = match deserialize (Engine []) (buffer_bytes data) with
    | Normal client => Settles (Fulfilled client)
    | Throw e => UncaughtInCallback e
    end.
Proof.
  intros Hread. unfold makeAdBlockClientFromDATFile, ArrayBuffer_slice,
    buffer_bytes.
  rewrite Hread. rewrite <-take_drop_commute.
  by destruct (deserialize _ _).
Qed.

(** X12. A snapshot that can be read is handed to the engine as exactly
    the bytes that the buffer shows, not the whole of the memory that the
    buffer is cut from.  When the engine takes them, the promise is
    fulfilled with the client, which started without rules; when the
    engine throws, this happens in the callback of the read, and the
    promise is not rejected: the exception is not caught. *)
Theorem snapshot_exact_bytes (datFilePath : string) (data : NodeBuffer) :
  readFile datFilePath = inr data →
  makeAdBlockClientFromDATFile readFile deserialize datFilePath
  = match deserialize (Engine []) (buffer_bytes data) with
    | Normal client => Settles (Fulfilled client)
    | Throw e => UncaughtInCallback e
    end.
Proof. apply DATFile_read. Qed.

End FilesMore.

Lemma unreadable_file_rejects_example :
  let e := Error "ENOENT: no such file or directory, open 'missing.txt'" in
  makeAdBlockClientFromFilePath sample_files unit
    (Many (["rules.txt"] ++ "missing.txt" :: ["rules.txt"])) tt = Rejected e ∧
  makeAdBlockClientFromFilePath sample_files unit (One "missing.txt") tt
  = Rejected e.
Proof.
  apply (unreadable_file_rejects sample_files unit ["rules.txt"] [rules_txt]
           "missing.txt" _ ["rules.txt"] tt).
  - repeat constructor.
  - reflexivity.
Defined.

Lemma snapshot_exact_bytes_example :
  makeAdBlockClientFromDATFile sample_readFile sample_deserialize "rules.dat"
  = match sample_deserialize (Engine [])
            (buffer_bytes (mkBuffer [Byte.x00; Byte.x61; Byte.x62; Byte.x63;
                                     Byte.xff] 1 3)) with
    | Normal client => Settles (Fulfilled client)
    | Throw e => UncaughtInCallback e
    end.
Proof.
  apply (snapshot_exact_bytes sample_readFile sample_deserialize "rules.dat").
  reflexivity.
Defined.

(** The client of that snapshot: the three bytes of the view. *)
Lemma snapshot_example_client :
  makeAdBlockClientFromDATFile sample_readFile sample_deserialize "rules.dat"
  = Settles (Fulfilled (Engine ["a"; "b"; "c"])).
Proof. vm_compute. reflexivity. Qed.

(** ** More on the query dispatcher *)

Section DispatchMore.

Variable readFileSync : string → JsError + string.
Variable Stats : Type.
Variable Buffer : Type.
Variable getParsingStats : Client → Stats.
Variable check : Client → JsVal → JsVal → JsVal → bool.
Variable serialize : Client → Buffer.
Variable write_error : string → Buffer → option JsError.

#[local] Abbreviation settle' :=
  (settle readFileSync Stats Buffer getParsingStats check serialize
     write_error).

(** X14. In batch mode, when the site list cannot be read, the error is
    printed and that is all: no query is made, no count is printed, and
    the snapshot is not written even when an output path was given. *)
Theorem unreadable_site_list (commander : Commander) (adBlockClient : Client)
    (path : string) (e : JsError) :
  commander_stats commander = false →
  truthy (commander_location commander) = false →
  commander_list commander = Some path →
  readFileSync path = inl e →
  settle' commander (Fulfilled adBlockClient)
  = [console_log Stats Buffer [LStr Stats "Error:"; LErr Stats e]].
Proof.
  intros Hstats Hloc Hlist Hread. unfold settle, onFulfilled.
  rewrite Hstats, Hloc, Hlist. unfold readSiteList. by rewrite Hread.
Qed.

Lemma check_calls_after_handler (commander : Commander)
    (adBlockClient : Client) :
  check_calls Stats Buffer (settle' commander (Fulfilled adBlockClient))
  = check_calls Stats Buffer
      (onFulfilled readFileSync Stats Buffer getParsingStats check serialize
         write_error commander adBlockClient).1.
Proof.
  unfold settle. destruct (onFulfilled _ _ _ _ _ _ _ _ _) as [ev [[]|e]];
    [done|].
  rewrite check_calls_app. simpl. by rewrite app_nil_r.
Qed.

(** X15. A location wins over a site list: when both are given, exactly
    one query is made, with the location as the URL, the origin made from
    the host and the resource type, and the site list plays no part; it
    is not even read, so it may be missing. *)
Theorem location_wins_over_list (commander : Commander) (adBlockClient : Client)
    (other_list : JsVal) :
  commander_stats commander = false →
  truthy (commander_location commander) = true →
  settle' commander (Fulfilled adBlockClient)
  = settle'
      {| commander_uuid := commander_uuid commander;
         commander_dat := commander_dat commander;
         commander_filter := commander_filter commander;
         commander_filterPath := commander_filterPath commander;
         commander_http := commander_http commander;
         commander_host := commander_host commander;
         commander_location := commander_location commander;
         commander_output := commander_output commander;
         commander_list := other_list;
         commander_stats := commander_stats commander;
         commander_cache := commander_cache commander;
         commander_filterOption := commander_filterOption commander |}
      (Fulfilled adBlockClient) ∧
  check_calls Stats Buffer (settle' commander (Fulfilled adBlockClient))
  = [(commander_location commander,
      Some ("https://" +:+ template (commander_host commander)),
      Some (commander_filterOption commander))].
Proof.
  intros Hstats Hloc. split.
  - unfold settle.
    by rewrite !(single_run readFileSync Stats Buffer getParsingStats check
                   serialize write_error) by done.
  - rewrite check_calls_after_handler.
    by apply single_check_arguments.
Qed.

End DispatchMore.

Lemma unreadable_site_list_example :
  settle sample_files nat (list string) sample_getParsingStats sample_check
    sample_serialize sample_write_error missing_list_commander
    (Fulfilled sample_client)
  = [console_log nat (list string)
       [LStr nat "Error:";
        LErr nat (Error "ENOENT: no such file or directory, open 'missing.txt'")]].
Proof.
  apply (unreadable_site_list sample_files nat (list string)
           sample_getParsingStats sample_check sample_serialize
           sample_write_error missing_list_commander sample_client
           "missing.txt").
  - reflexivity.
  - reflexivity.
  - reflexivity.
  - reflexivity.
Defined.

(** A query for a location, with a site list that does not exist. *)
Lemma location_wins_over_list_example :
  check_calls nat (list string)
    (settle sample_files nat (list string) sample_getParsingStats
       sample_check sample_serialize sample_write_error http_commander
       (Fulfilled sample_client))
  = [(Some "https://a.example/x.js", Some "https://www.cnet.com",
      Some "image")].
Proof.
  apply (proj2 (location_wins_over_list sample_files nat (list string)
                  sample_getParsingStats sample_check sample_serialize
                  sample_write_error http_commander sample_client None
                  eq_refl eq_refl)).
Defined.

(** ** The script as a whole *)

Lemma truthy_string_true (v : JsVal) :
  truthy v = true → ∃ s, v = Some s ∧ truthy_string v = Some s.
Proof.
  destruct v as [[|c s]|]; try done. intros _. by eexists.
Qed.

Lemma truthy_string_false (v : JsVal) :
  truthy v = false → truthy_string v = None.
Proof. by destruct v as [[|c s]|]. Qed.

Section Whole.

Variable sanitizeABPInput : string → string.
Variable request_get : string → FetchOutcome.
Variable readFileSync : string → JsError + string.
Variable readFile : string → JsError + NodeBuffer.
Variable lists : string → list ListDescriptor.
Variable globals : gmap string Value.
Variable Stats : Type.
Variable Buffer : Type.
Variable getParsingStats : Client → Stats.
Variable check : Client → JsVal → JsVal → JsVal → bool.
Variable serialize : Client → Buffer.
Variable write_error : string → Buffer → option JsError.
Variable deserialize : Client → list Byte.byte → Completion Client.

#[local] Abbreviation script :=
  (main sanitizeABPInput request_get readFileSync readFile lists globals
     Stats Buffer getParsingStats check serialize write_error deserialize).
#[local] Abbreviation printed :=
  (λ args, handled Stats Buffer (console_log Stats Buffer args)).

Lemma parseOptions_unbound :
  globals !! "parseOptions" = None →
  resolveBinding [script_scope; Initialized <$> globals] "parseOptions"
  = Throw (ReferenceError "parseOptions is not defined").
Proof.
  intros Hnone. simpl.
  replace (script_scope !! "parseOptions") with (@None Binding)
    by (vm_compute; reflexivity).
  by rewrite lookup_fmap, Hnone.
Qed.

(** X16. Without the stats flag, and without a host together with a
    location or a site list, the script prints the usage error and does
    nothing else, whatever source flags were given and whatever the
    network and the disk hold. *)
Theorem usage_error_only (commander : Commander) (order : list nat) :
  proceeds commander = false →
  script commander order
  = Completed Stats Buffer [printed [LStr Stats "Error:"; LErr Stats usage]].
Proof. intros Hstop. unfold main. by rewrite Hstop. Qed.

(** X17. A run that selects a catalog identifier never gets to a query:
    whatever the identifier, the catalogs and the global object, the
    script ends at the top level with a [ReferenceError] that nothing
    catches, before anything is printed. *)
Theorem uuid_run_ends_uncaught (commander : Commander) (order : list nat) :
  proceeds commander = true →
  truthy (commander_uuid commander) = true →
  ∃ e, script commander order = Uncaught Stats Buffer [] e ∧
       err_name e = "ReferenceError".
Proof.
  intros Hgo Huuid. unfold main. rewrite Hgo.
  destruct (truthy_string_true _ Huuid) as (uuid & _ & ->).
  destruct (resolveBinding _ "parseOptions") as [parseOptions|e] eqn:E.
  - eexists. split; [reflexivity|done].
  - simpl. exists e. split; [done|].
    simpl in E.
    replace (script_scope !! "parseOptions") with (@None Binding) in E
      by (vm_compute; reflexivity).
    destruct ((Initialized <$> globals) !! "parseOptions") as [[|v]|];
      by inversion E.
Qed.

(** X18. The script never declares [parseOptions]: unless the global
    object has a property of that name, a run that selects a remote URL,
    raw filter text or a local file ends at the top level with
    "parseOptions is not defined", before the list is fetched or read. *)
Theorem parseOptions_run_ends_uncaught (commander : Commander)
    (order : list nat) :
  globals !! "parseOptions" = None →
  proceeds commander = true →
  truthy (commander_uuid commander) = false →
  truthy (commander_dat commander) = false →
  truthy (commander_http commander)
    || truthy (commander_filter commander)
    || truthy (commander_filterPath commander) = true →
  script commander order
  = Uncaught Stats Buffer [] (ReferenceError "parseOptions is not defined").
Proof.
  intros Hnone Hgo Huuid Hdat Hsome. unfold main.
  rewrite Hgo, (truthy_string_false _ Huuid), (truthy_string_false _ Hdat).
  rewrite (parseOptions_unbound Hnone).
  destruct (truthy (commander_http commander)) eqn:Hhttp.
  { by destruct (truthy_string_true _ Hhttp) as (s & _ & ->). }
  rewrite (truthy_string_false _ Hhttp).
  destruct (truthy (commander_filter commander)) eqn:Hfilter.
  { by destruct (truthy_string_true _ Hfilter) as (s & _ & ->). }
  rewrite (truthy_string_false _ Hfilter).
  destruct (truthy (commander_filterPath commander)) eqn:Hpath; [|done].
  by destruct (truthy_string_true _ Hpath) as (s & _ & ->).
Qed.

(** X19. A stats run without any source flag works from start to end: the
    script prints the URLs of the default catalog, fetches them all, and
    reports the stats of the client built from their sanitized bodies,
    joined in the order of the catalog and sanitized again; it makes no
    query and writes nothing. *)
Theorem default_lists_stats_run (commander : Commander) (order : list nat)
    (bodies : list string) :
  commander_stats commander = true →
  truthy (commander_uuid commander) = false →
  truthy (commander_dat commander) = false →
  truthy (commander_http commander) = false →
  truthy (commander_filter commander) = false →
  truthy (commander_filterPath commander) = false →
  Forall2 (λ l body, request_get (list_url l) = Reply 200 body)
          (lists "default") bodies →
  order ≡ₚ seq 0 (length (lists "default")) →
  script commander order
  = Completed Stats Buffer
      [log_defaultLists Stats Buffer (map list_url (lists "default"));
       printed [LStr Stats "Parsing stats:";
                LStats Stats (getParsingStats (Engine (split_nl
                  (sanitizeABPInput (join_nl
                     (map sanitizeABPInput bodies))))))]].
Proof.
  intros Hstats Huuid Hdat Hhttp Hfilter Hpath Hall Hperm. unfold main.
  assert (proceeds commander = true) as ->.
  { unfold proceeds. rewrite Hstats. apply orb_true_r. }
  rewrite (truthy_string_false _ Huuid), (truthy_string_false _ Hdat),
    (truthy_string_false _ Hhttp), (truthy_string_false _ Hfilter),
    (truthy_string_false _ Hpath).
  cbv zeta.
  rewrite (aggregation_in_input_order sanitizeABPInput request_get Value
             (map list_url (lists "default")) bodies None).
  - simpl. unfold settle, onFulfilled, makeAdBlockClientFromString.
    by rewrite Hstats.
  - clear Hperm. induction Hall; simpl; by constructor.
  - by rewrite length_map.
Qed.

(** X20. A run from a snapshot file: when the file cannot be read, the
    error is printed and nothing else happens; when the engine refuses the
    bytes, the exception is thrown in the callback of the read, where the
    handler that prints errors does not reach it. *)
Theorem snapshot_run_failures (commander : Commander) (order : list nat)
    (dat : string) :
  proceeds commander = true →
  truthy (commander_uuid commander) = false →
  commander_dat commander = Some dat →
  truthy (Some dat) = true →
  (∀ err, readFile dat = inl err →
     script commander order
     = Completed Stats Buffer [printed [LStr Stats "Error:"; LErr Stats err]]) ∧
  (∀ data e, readFile dat = inr data →
     deserialize (Engine []) (buffer_bytes data) = Throw e →
     script commander order = Uncaught Stats Buffer [] e).
Proof.
  intros Hgo Huuid Hdat Htruthy. unfold main.
  rewrite Hgo, (truthy_string_false _ Huuid), Hdat.
  unfold truthy_string. rewrite Htruthy. split.
  - intros err Hread. unfold makeAdBlockClientFromDATFile. by rewrite Hread.
  - intros data e Hread Hthrow.
    rewrite (DATFile_read readFile deserialize dat data Hread).
    by rewrite Hthrow.
Qed.

End Whole.


Lemma usage_error_only_example :
  sample_script host_only_commander []
  = Completed nat (list string)
      [handled nat (list string)
         (console_log nat (list string) [LStr nat "Error:"; LErr nat usage])].
Proof.
  apply (usage_error_only strip_cr sample_network sample_files sample_readFile
           sample_lists ∅ nat (list string) sample_getParsingStats
           sample_check sample_serialize sample_write_error
           sample_deserialize host_only_commander []).
  reflexivity.
Defined.

Lemma uuid_run_ends_uncaught_example :
  ∃ e, sample_script stats_commander [] = Uncaught nat (list string) [] e ∧
       err_name e = "ReferenceError".
Proof.
  apply (uuid_run_ends_uncaught strip_cr sample_network sample_files
           sample_readFile sample_lists ∅ nat (list string)
           sample_getParsingStats sample_check sample_serialize
           sample_write_error sample_deserialize stats_commander []).
  - reflexivity.
  - reflexivity.
Defined.

Lemma parseOptions_run_ends_uncaught_example :
  sample_script http_commander []
  = Uncaught nat (list string) []
      (ReferenceError "parseOptions is not defined").
Proof.
  apply (parseOptions_run_ends_uncaught strip_cr sample_network sample_files
           sample_readFile sample_lists ∅ nat (list string)
           sample_getParsingStats sample_check sample_serialize
           sample_write_error sample_deserialize http_commander []).
  - reflexivity.
  - reflexivity.
  - reflexivity.
  - reflexivity.
  - reflexivity.
Defined.

Lemma default_lists_stats_run_example :
  sample_script default_stats_commander [0]
  = Completed nat (list string)
      [log_defaultLists nat (list string) ["https://lists.example/a.txt"];
       handled nat (list string)
         (console_log nat (list string)
            [LStr nat "Parsing stats:"; LStats nat 1])].
Proof.
  apply (default_lists_stats_run strip_cr sample_network sample_files
           sample_readFile sample_lists ∅ nat (list string)
           sample_getParsingStats sample_check sample_serialize
           sample_write_error sample_deserialize default_stats_commander [0] [body_a]).
  - reflexivity.
  - reflexivity.
  - reflexivity.
  - reflexivity.
  - reflexivity.
  - reflexivity.
  - repeat constructor.
  - reflexivity.
Defined.

Lemma snapshot_run_failures_example :
  sample_script dat_commander []
  = Completed nat (list string)
      [handled nat (list string)
         (console_log nat (list string)
            [LStr nat "Error:";
             LErr nat (Error "ENOENT: no such file or directory, open 'missing.dat'")])].
Proof.
  apply (proj1 (snapshot_run_failures strip_cr sample_network sample_files
                  sample_readFile sample_lists ∅ nat (list string)
                  sample_getParsingStats sample_check sample_serialize
                  sample_write_error sample_deserialize dat_commander [] "missing.dat"
                  eq_refl eq_refl eq_refl eq_refl)).
  reflexivity.
Defined.
